(** * Repository statistics: collection, aggregation and chart derivation

    A shallow embedding of [utils/repo_stats.py] (class [RepoAnalyzer]) and
    [utils/stats_visualizer.py] (class [StatsVisualizer]), with the
    properties of the design document stated and proved over it.

    Conventions.
    - Python values that come out of [response.json()] are values of the
      type [json]; numbers are integers (a payload with a fractional number
      is outside the model), characters are the 8-bit characters of [string].
    - A Python [dict] keeps its insertion order: it is an association list
      with one binding per key, new keys being appended at the end.
    - Exceptions and the output of [print] are explicit: a computation is a
      function from the log of events so far to an outcome and the new log.
    - [while True] is a loop with fuel; running out of fuel is the outcome
      [Timeout], which no theorem below accepts as a result. *)

From Stdlib Require Import String Ascii Bool ZArith Lia List Permutation Sorted SpecFloat.
Import ListNotations.
Local Open Scope list_scope.
Set Warnings "-register-all".

(* ================================================================== *)
(** * Python values and the operations the two scripts apply to them  *)
(* ================================================================== *)

Module Py.

(** The exceptions the modelled statements can raise.  [SliceOfDict] is the
    failure of [d[:10]] on a dict: a [TypeError] (unhashable slice) before
    Python 3.12 and a [KeyError] whose key is the slice object from 3.12
    on; it is never a missing member name. *)
Inductive exn : Type :=
| KeyError (key : string)
| TypeError
| AttributeError
| JSONDecodeError
| OverflowError
| SliceOfDict.

Inductive json : Type :=
| JNull
| JBool (b : bool)
| JNum (n : Z)
| JStr (s : string)
| JArr (items : list json)
| JObj (members : list (string * json)).

(** Hashable scalars, as dictionary keys.  Python identifies [True] with
    [1] and [False] with [0] as keys, hence booleans are stored as numbers. *)
Inductive pykey : Type :=
| KNone
| KInt (n : Z)
| KStr (s : string).

Definition pykey_eqb (a b : pykey) : bool :=
  match a, b with
  | KNone, KNone => true
  | KInt x, KInt y => Z.eqb x y
  | KStr x, KStr y => String.eqb x y
  | _, _ => false
  end.

(** ** Results *)

Inductive result (A : Type) : Type :=
| Ok (a : A)
| Err (e : exn).
Arguments Ok {A} a.
Arguments Err {A} e.

Definition rbind {A B} (r : result A) (k : A -> result B) : result B :=
  match r with
  | Ok a => k a
  | Err e => Err e
  end.

Fixpoint rmap {A B} (f : A -> result B) (l : list A) : result (list B) :=
  match l with
  | [] => Ok []
  | x :: l' =>
      rbind (f x) (fun y => rbind (rmap f l') (fun ys => Ok (y :: ys)))
  end.

(** ** Dictionaries in insertion order *)

Section Dict.
Context {K V : Type}.
Variable eqb : K -> K -> bool.

Fixpoint dict_get (k : K) (d : list (K * V)) : option V :=
  match d with
  | [] => None
  | (k', v) :: d' => if eqb k k' then Some v else dict_get k d'
  end.

(** [d[k] = v]: an existing key keeps its slot, a new key goes last. *)
Fixpoint dict_set (k : K) (v : V) (d : list (K * V)) : list (K * V) :=
  match d with
  | [] => [(k, v)]
  | (k', v') :: d' =>
      if eqb k k' then (k', v) :: d' else (k', v') :: dict_set k v d'
  end.

Definition keys (d : list (K * V)) : list K := map fst d.
Definition values (d : list (K * V)) : list V := map snd d.
End Dict.

(** [d[k] += 1] on a [defaultdict(int)] and on a [Counter]. *)
Fixpoint dict_incr {K} (eqb : K -> K -> bool) (k : K) (d : list (K * nat))
  : list (K * nat) :=
  match d with
  | [] => [(k, 1)]
  | (k', n) :: d' =>
      if eqb k k' then (k', S n) :: d' else (k', n) :: dict_incr eqb k d'
  end.

Definition sum (l : list nat) : nat := fold_right Nat.add 0 l.

(** [d[k]] on a [defaultdict(int)]: a key that is absent reads as 0. *)
Definition count_of {K} (eqb : K -> K -> bool) (k : K) (d : list (K * nat))
  : nat :=
  match dict_get eqb k d with
  | Some n => n
  | None => 0
  end.

(** How many elements of [l] equal [k]. *)
Definition occurrences {K} (eqb : K -> K -> bool) (k : K) (l : list K) : nat :=
  length (filter (eqb k) l).

(** ** Operations on JSON values *)

(** [v[k]] for a string [k]. *)
Definition getitem (v : json) (k : string) : result json :=
  match v with
  | JObj members =>
      match dict_get String.eqb k members with
      | Some x => Ok x
      | None => Err (KeyError k)
      end
  | _ => Err TypeError
  end.

(** [v.get(k, default)]: only a dict has the method. *)
Definition get_default (v : json) (k : string) (default : json) : result json :=
  match v with
  | JObj members =>
      match dict_get String.eqb k members with
      | Some x => Ok x
      | None => Ok default
      end
  | _ => Err AttributeError
  end.

Definition truthy (v : json) : bool :=
  match v with
  | JNull => false
  | JBool b => b
  | JNum n => negb (Z.eqb n 0)
  | JStr s => negb (String.eqb s EmptyString)
  | JArr items => match items with [] => false | _ => true end
  | JObj members => match members with [] => false | _ => true end
  end.

Fixpoint chars (s : string) : list json :=
  match s with
  | EmptyString => []
  | String c s' => JStr (String c EmptyString) :: chars s'
  end.

(** The items a [for] loop or [list.extend] draws from a value. *)
Definition iterate (v : json) : result (list json) :=
  match v with
  | JArr items => Ok items
  | JObj members => Ok (map (fun kv => JStr (fst kv)) members)
  | JStr s => Ok (chars s)
  | _ => Err TypeError
  end.

Definition len (v : json) : result nat :=
  match v with
  | JArr items => Ok (length items)
  | JObj members => Ok (length members)
  | JStr s => Ok (String.length s)
  | _ => Err TypeError
  end.

(** [s[:n]] on a string. *)
Definition str_take (n : nat) (s : string) : string := substring 0 n s.

(** [hash(v)], as far as a dict needs it. *)
Definition hashable (v : json) : result pykey :=
  match v with
  | JNull => Ok KNone
  | JBool b => Ok (KInt (if b then 1 else 0))
  | JNum n => Ok (KInt n)
  | JStr s => Ok (KStr s)
  | JArr _ | JObj _ => Err TypeError
  end.

End Py.

(* ================================================================== *)
(** * utils/repo_stats.py                                             *)
(* ================================================================== *)

Module RepoStats.
Import Py.

(** ** The remote API, as [requests.get] shows it *)

(** [body] is what [response.json()] returns; [None] when the body is not
    a JSON document, in which case [response.json()] raises. *)
Record response : Type := {
  status_code : Z;
  body : option json
}.

(** One run talks to three endpoints.  The commits endpoint is queried
    with the parameter [page]; the other parameters are fixed for the run. *)
Record provider : Type := {
  commits_endpoint : nat -> response;
  tree_endpoint : response;
  contributors_endpoint : response
}.

Inductive event : Type :=
| Get_commits (page : nat)
| Get_tree
| Get_contributors
| Print_analyzing (repo : string) (days : Z)
| Print_error (what : string) (code : Z)
| Print_value (v : json).

(** ** Computations: a log of events, exceptions, and fuel for [while] *)

Inductive outcome (A : Type) : Type :=
| Returns (a : A)
| Raises (e : exn)
| Timeout.
Arguments Returns {A} a.
Arguments Raises {A} e.
Arguments Timeout {A}.

Definition M (A : Type) : Type := list event -> outcome A * list event.

Definition ret {A} (a : A) : M A := fun log => (Returns a, log).

Definition bind {A B} (m : M A) (k : A -> M B) : M B :=
  fun log =>
    match m log with
    | (Returns a, log') => k a log'
    | (Raises e, log') => (Raises e, log')
    | (Timeout, log') => (Timeout, log')
    end.

Definition emit (ev : event) : M unit := fun log => (Returns tt, log ++ [ev]).
Definition raise {A} (e : exn) : M A := fun log => (Raises e, log).
Definition timeout {A} : M A := fun log => (Timeout, log).

Definition lift {A} (r : result A) : M A :=
  match r with
  | Ok a => ret a
  | Err e => raise e
  end.

Declare Scope py_scope.
Delimit Scope py_scope with py.
Notation "x <- m ;; k" := (bind m (fun x => k))
  (at level 61, m at next level, right associativity) : py_scope.
Notation "m ;;; k" := (bind m (fun _ => k))
  (at level 61, right associativity) : py_scope.
Local Open Scope py_scope.

Definition response_json (r : response) : M json :=
  match body r with
  | Some v => ret v
  | None => raise JSONDecodeError
  end.

Record RepoAnalyzer : Type := {
  repo : string;
  days : Z
}.

(** ** [RepoAnalyzer.get_commits] *)

Definition per_page : nat := 100.

Fixpoint get_commits_loop (fuel : nat) (api : provider)
    (all_commits : list json) (page : nat) : M (list json) :=
  match fuel with
  | O => timeout
  | S fuel' =>
      emit (Get_commits page) ;;;
      let response := commits_endpoint api page in
      if negb (status_code response =? 200)%Z then
        emit (Print_error "Error fetching commits" (status_code response)) ;;;
        doc <- response_json response ;;
        msg <- lift (get_default doc "message" (JStr "Unknown error")) ;;
        emit (Print_value msg) ;;;
        ret all_commits
      else
        commits <- response_json response ;;
        if negb (truthy commits) then ret all_commits
        else
          items <- lift (iterate commits) ;;
          let all_commits := all_commits ++ items in
          let page := S page in
          n <- lift (len commits) ;;
          if n <? per_page then ret all_commits
          else get_commits_loop fuel' api all_commits page
  end.

Definition get_commits (fuel : nat) (api : provider) : M (list json) :=
  get_commits_loop fuel api [] 1.

(** ** [os.path.splitext], POSIX flavour

    [genericpath._splitext(p, sep, altsep, extsep)] with [sep = "/"],
    [altsep = None] and [extsep = "."], on the characters of the path. *)

Definition slash : ascii := "/"%char.
Definition dot : ascii := "."%char.

Fixpoint rfind_from (c : ascii) (p : list ascii) (i : Z) (found : Z) : Z :=
  match p with
  | [] => found
  | a :: p' => rfind_from c p' (i + 1) (if Ascii.eqb a c then i else found)
  end.

(** [p.rfind(c)]: the highest index of [c] in [p], or [-1]. *)
Definition rfind (c : ascii) (p : list ascii) : Z := rfind_from c p 0 (-1).

(** [p[i:j]] for indices that are not negative. *)
Definition slice (i j : Z) (p : list ascii) : list ascii :=
  firstn (Z.to_nat j - Z.to_nat i) (skipn (Z.to_nat i) p).

(** The [while filenameIndex < dotIndex] loop; [n] bounds its iterations. *)
Fixpoint skip_leading_dots (n : nat) (p : list ascii)
    (filenameIndex dotIndex : Z) : list ascii * list ascii :=
  match n with
  | O => (p, [])
  | S n' =>
      if (filenameIndex <? dotIndex)%Z then
        match slice filenameIndex (filenameIndex + 1) p with
        | [c] =>
            if Ascii.eqb c dot
            then skip_leading_dots n' p (filenameIndex + 1)%Z dotIndex
            else (firstn (Z.to_nat dotIndex) p, skipn (Z.to_nat dotIndex) p)
        | _ => (firstn (Z.to_nat dotIndex) p, skipn (Z.to_nat dotIndex) p)
        end
      else (p, [])
  end.

Definition splitext (p : list ascii) : list ascii * list ascii :=
  let sepIndex := rfind slash p in
  let dotIndex := rfind dot p in
  if (dotIndex >? sepIndex)%Z then
    let filenameIndex := (sepIndex + 1)%Z in
    skip_leading_dots (Z.to_nat (dotIndex - filenameIndex)) p
      filenameIndex dotIndex
  else (p, []).

(** [str.lower] on the letters A to Z. *)
Definition lower_char (c : ascii) : ascii :=
  let n := nat_of_ascii c in
  if (65 <=? n) && (n <=? 90) then ascii_of_nat (n + 32) else c.

Definition lower (s : list ascii) : list ascii := map lower_char s.

(** [os.path.splitext(f)[1][1:].lower() or "no_extension"]. *)
Definition extension_token (f : string) : string :=
  let ext := snd (splitext (list_ascii_of_string f)) in
  match lower (skipn 1 ext) with
  | [] => "no_extension"%string
  | e => string_of_list_ascii e
  end.

(** ** [RepoAnalyzer.get_file_types] *)

(** [item["type"] == "blob"] *)
Definition is_blob (t : json) : bool :=
  match t with
  | JStr s => String.eqb s "blob"
  | _ => false
  end.

(** [[item["path"] for item in ... if item["type"] == "blob"]] *)
Fixpoint blob_paths (items : list json) : result (list json) :=
  match items with
  | [] => Ok []
  | item :: rest =>
      rbind (getitem item "type") (fun t =>
      if is_blob t then
        rbind (getitem item "path") (fun path =>
        rbind (blob_paths rest) (fun paths => Ok (path :: paths)))
      else blob_paths rest)
  end.

(** [os.path.splitext] accepts a [str] only. *)
Definition extension_of (f : json) : result string :=
  match f with
  | JStr s => Ok (extension_token s)
  | _ => Err TypeError
  end.

Definition Counter (l : list string) : list (string * nat) :=
  fold_left (fun d e => dict_incr String.eqb e d) l [].

Definition get_file_types (api : provider) : M (list (string * nat)) :=
  emit Get_tree ;;;
  let response := tree_endpoint api in
  if negb (status_code response =? 200)%Z then
    emit (Print_error "Error fetching repository contents"
            (status_code response)) ;;;
    ret (Counter [])
  else
    data <- response_json response ;;
    tree <- lift (get_default data "tree" (JArr [])) ;;
    items <- lift (iterate tree) ;;
    files <- lift (blob_paths items) ;;
    extensions <- lift (rmap extension_of files) ;;
    ret (Counter extensions).

(** ** [RepoAnalyzer.get_contributors] *)

Definition get_contributors (api : provider) : M json :=
  emit Get_contributors ;;;
  let response := contributors_endpoint api in
  if negb (status_code response =? 200)%Z then
    emit (Print_error "Error fetching contributors" (status_code response)) ;;;
    ret (JArr [])
  else response_json response.

(** ** [RepoAnalyzer.generate_report] *)

Record report : Type := {
  repository : string;
  analysis_period_days : Z;
  total_commits : nat;
  commit_frequency : list (string * nat);
  authors : list (pykey * nat);
  file_types : list (string * nat);
  contributors : list (json * json)
}.

(** [d[:10]] used as a key of [commit_dates]: a string gives a string; a
    list gives a list, which is not hashable. *)
Definition date_key (d : json) : result string :=
  match d with
  | JStr s => Ok (str_take 10 s)
  | JObj _ => Err SliceOfDict
  | _ => Err TypeError
  end.

(** The body of [for commit in commits]. *)
Definition count_commit (commit : json)
    (acc : list (string * nat) * list (pykey * nat))
  : result (list (string * nat) * list (pykey * nat)) :=
  let '(commit_dates, authors) := acc in
  rbind (getitem commit "commit") (fun c =>
  rbind (getitem c "author") (fun a =>
  rbind (getitem a "date") (fun d =>
  rbind (date_key d) (fun date =>
  let commit_dates := dict_incr String.eqb date commit_dates in
  rbind (getitem commit "commit") (fun c' =>
  rbind (getitem c' "author") (fun a' =>
  rbind (getitem a' "name") (fun name =>
  rbind (hashable name) (fun author =>
  let authors := dict_incr pykey_eqb author authors in
  Ok (commit_dates, authors))))))))).

Fixpoint count_commits (commits : list json)
    (acc : list (string * nat) * list (pykey * nat))
  : result (list (string * nat) * list (pykey * nat)) :=
  match commits with
  | [] => Ok acc
  | commit :: rest => rbind (count_commit commit acc) (count_commits rest)
  end.

(** [contributors[:10]] *)
Definition first_ten (v : json) : result json :=
  match v with
  | JArr items => Ok (JArr (firstn 10 items))
  | JStr s => Ok (JStr (str_take 10 s))
  | JObj _ => Err SliceOfDict
  | _ => Err TypeError
  end.

(** [{"login": c["login"], "contributions": c["contributions"]}] *)
Definition contributor_entry (c : json) : result (json * json) :=
  rbind (getitem c "login") (fun login =>
  rbind (getitem c "contributions") (fun contributions =>
  Ok (login, contributions))).

Definition generate_report (self : RepoAnalyzer) (fuel : nat) (api : provider)
  : M report :=
  emit (Print_analyzing (repo self) (days self)) ;;;
  commits <- get_commits fuel api ;;
  let commit_count := length commits in
  counts <- lift (count_commits commits ([], [])) ;;
  let '(commit_dates, authors) := counts in
  file_types <- get_file_types api ;;
  contributors <- get_contributors api ;;
  top <- lift (first_ten contributors) ;;
  cs <- lift (iterate top) ;;
  entries <- lift (rmap contributor_entry cs) ;;
  ret {| repository := repo self;
         analysis_period_days := days self;
         total_commits := commit_count;
         commit_frequency := commit_dates;
         authors := authors;
         file_types := file_types;
         contributors := entries |}.

(** ** Vocabulary of the statements about [RepoAnalyzer] *)

(** The outcome and the events of a computation started on an empty log. *)
Definition run {A} (m : M A) : outcome A := fst (m []).
Definition trace {A} (m : M A) : list event := snd (m []).

(** A computation that only appends to the log and does not read it. *)
Definition framed {A} (m : M A) : Prop :=
  forall log, m log = (run m, log ++ trace m).

(** A successful page of the commits endpoint carrying an item array. *)
Definition ok_page (items : list json) : response :=
  {| status_code := 200; body := Some (JArr items) |}.

(** The page indices of the commit requests of a log, oldest first. *)
Definition requested_pages (log : list event) : list nat :=
  flat_map (fun ev => match ev with Get_commits p => [p] | _ => [] end) log.

(** The two keys one commit record contributes: the lookups and
    conversions of the loop body, without the two counters. *)
Definition commit_keys (commit : json) : result (string * pykey) :=
  rbind (getitem commit "commit") (fun c =>
  rbind (getitem c "author") (fun a =>
  rbind (getitem a "date") (fun d =>
  rbind (date_key d) (fun date =>
  rbind (getitem commit "commit") (fun c' =>
  rbind (getitem c' "author") (fun a' =>
  rbind (getitem a' "name") (fun name =>
  rbind (hashable name) (fun author =>
  Ok (date, author))))))))).

(** The two counters after the keys [ks] have been counted, in order. *)
Definition tally (ks : list (string * pykey))
    (acc : list (string * nat) * list (pykey * nat))
  : list (string * nat) * list (pykey * nat) :=
  fold_left
    (fun acc dk => (dict_incr String.eqb (fst dk) (fst acc),
                    dict_incr pykey_eqb (snd dk) (snd acc)))
    ks acc.

(** A commit record carrying an ISO date and an author name under
    [commit.author]. *)
Definition well_formed (commit : json) : Prop :=
  exists c a date name,
    getitem commit "commit" = Ok c /\
    getitem c "author" = Ok a /\
    getitem a "date" = Ok (JStr date) /\
    getitem a "name" = Ok (JStr name).

(** A commit record in which both [commit.author.date] and
    [commit.author.name] can be looked up, whatever they hold. *)
Definition has_fields (commit : json) : Prop :=
  exists c a date name,
    getitem commit "commit" = Ok c /\
    getitem c "author" = Ok a /\
    getitem a "date" = Ok date /\
    getitem a "name" = Ok name.

(** [v] is an object without the member [k]. *)
Definition missing (v : json) (k : string) : Prop :=
  exists members, v = JObj members /\ dict_get String.eqb k members = None.

(** The record lacks the member [k] on the way to [commit.author.date] or
    [commit.author.name]. *)
Definition lacks_field (commit : json) (k : string) : Prop :=
  (k = "commit"%string /\ missing commit k) \/
  (exists c, getitem commit "commit" = Ok c /\
     ((k = "author"%string /\ missing c k) \/
      (exists a, getitem c "author" = Ok a /\
         ((k = "date"%string /\ missing a k) \/
          (k = "name"%string /\ missing a k /\
           exists date, getitem a "date" = Ok (JStr date)))))).

(** Equality of two dicts as mappings: Python's [==] on dicts. *)
Definition same_mapping {K} (eqb : K -> K -> bool) (d d' : list (K * nat))
  : Prop :=
  forall k, dict_get eqb k d = dict_get eqb k d'.

Definition same_counters
    (acc acc' : list (string * nat) * list (pykey * nat)) : Prop :=
  same_mapping String.eqb (fst acc) (fst acc') /\
  same_mapping pykey_eqb (snd acc) (snd acc').

(** *** Extension tokens, in words *)

(** What follows the last [c] of [p], if [c] occurs. *)
Fixpoint after_last (c : ascii) (p : list ascii) : option (list ascii) :=
  match p with
  | [] => None
  | a :: p' =>
      match after_last c p' with
      | Some r => Some r
      | None => if Ascii.eqb a c then Some p' else None
      end
  end.

Definition final_component (p : list ascii) : list ascii :=
  match after_last slash p with
  | Some r => r
  | None => p
  end.

(** The token as the design document words it: the lower-cased substring
    after the last dot of the final component, ["no_extension"] when the
    component has no dot. *)
Definition documented_extension (f : string) : string :=
  match after_last dot (final_component (list_ascii_of_string f)) with
  | None => "no_extension"%string
  | Some e => string_of_list_ascii (lower e)
  end.

Definition is_dot (c : ascii) : bool := Ascii.eqb c dot.

Fixpoint strip_dots (p : list ascii) : list ascii :=
  match p with
  | [] => []
  | a :: p' => if is_dot a then strip_dots p' else p
  end.

(** The same, with the dots that lead the final component set aside and
    an empty substring replaced by the default. *)
Definition effective_extension (f : string) : string :=
  match
    after_last dot (strip_dots (final_component (list_ascii_of_string f)))
  with
  | None | Some [] => "no_extension"%string
  | Some e => string_of_list_ascii (lower e)
  end.

(** The tree entry [item] has the path and the type of [e]. *)
Definition describes (item : json) (e : string * string) : Prop :=
  getitem item "path" = Ok (JStr (fst e)) /\
  getitem item "type" = Ok (JStr (snd e)).

Definition blobs (entries : list (string * string)) : list (string * string) :=
  filter (fun e => String.eqb (snd e) "blob") entries.

(** A response after which the loop of [get_commits] asks for one more
    page: status 200 and a body that is true, can be iterated and has at
    least [per_page] items. *)
Definition full_page (r : response) : Prop :=
  status_code r = 200%Z /\
  exists v items n,
    body r = Some v /\ truthy v = true /\ iterate v = Ok items /\
    len v = Ok n /\ per_page <= n.

(** The contributor [item] has the login and the count of [e]. *)
Definition lists (item : json) (e : json * json) : Prop :=
  getitem item "login" = Ok (fst e) /\
  getitem item "contributions" = Ok (snd e).

(** A letter A to Z. *)
Definition is_upper (c : ascii) : bool :=
  let n := nat_of_ascii c in (65 <=? n) && (n <=? 90).

(** [f.lower()] on a string. *)
Definition lower_string (f : string) : string :=
  string_of_list_ascii (lower (list_ascii_of_string f)).

End RepoStats.

(* ================================================================== *)
(** * utils/stats_visualizer.py                                       *)
(* ================================================================== *)

Module StatsVisualizer.
Import Py.

(** ** The statistics document, as loaded from the report file *)

Record contributor : Type := {
  login : string;
  contributions : Z
}.

Record stats : Type := {
  repository : string;
  analysis_period_days : Z;
  total_commits : Z;
  commit_frequency : list (string * Z);
  authors : list (string * Z);
  file_types : list (string * Z);
  contributors : list contributor
}.

(** What a derivation hands to the plotting backend: the labels and the
    values of [plt.bar], [plt.pie] or [plt.barh], in the order given. *)
Record series : Type := {
  labels : list string;
  heights : list Z
}.

(** A method of [StatsVisualizer] reads and may update [self.stats]. *)
Definition V (A : Type) : Type := stats -> result A * stats.

(** ** [sorted] and [list.sort]: stable, also with [reverse=True] *)

Section Sort.
Context {A : Type}.
(** [before y x]: the key of [y] is strictly ahead of the key of [x]. *)
Variable before : A -> A -> bool.

Fixpoint insert (x : A) (l : list A) : list A :=
  match l with
  | [] => [x]
  | y :: l' => if before y x then y :: insert x l' else x :: y :: l'
  end.

Definition sort (l : list A) : list A := fold_right insert [] l.
End Sort.

Definition by_date (y x : string * Z) : bool := String.ltb (fst y) (fst x).
Definition by_count_desc (y x : string * Z) : bool := (snd y >? snd x)%Z.
Definition by_contributions_desc (y x : contributor) : bool :=
  (contributions y >? contributions x)%Z.

(** ** [generate_commit_frequency_chart] *)

Definition generate_commit_frequency_chart : V series := fun self =>
  let dates := keys (commit_frequency self) in
  let counts := values (commit_frequency self) in
  let date_count_pairs := sort by_date (combine dates counts) in
  let dates := map fst date_count_pairs in
  let counts := map snd date_count_pairs in
  (Ok {| labels := dates; heights := counts |}, self).

(** ** [generate_file_types_chart] *)

(** Binary64 arithmetic, as specified by [SpecFloat]. *)
Definition prec : Z := 53.
Definition emax : Z := 1024.

(** The float nearest to an [int]; Python refuses an [int] that rounds to
    infinity. *)
Definition float_of_int (n : Z) : result spec_float :=
  match binary_normalize prec emax n 0 false with
  | S754_infinity _ => Err OverflowError
  | x => Ok x
  end.

(** The literal [0.02]: 0x1.47ae147ae147bp-6. *)
Definition two_percent : spec_float :=
  S754_finite false 5764607523034235 (-58).

(** [total_files * 0.02] *)
Definition threshold_of (total_files : Z) : result spec_float :=
  rbind (float_of_int total_files) (fun x =>
  Ok (SFmul prec emax x two_percent)).

(** [count >= threshold] for an [int] and a [float]: Python compares the
    two numbers exactly. *)
Definition int_ge_float (count : Z) (x : spec_float) : bool :=
  match x with
  | S754_zero _ => (0 <=? count)%Z
  | S754_infinity s => s
  | S754_nan => false
  | S754_finite s m e =>
      let m' := if s then Z.neg m else Z.pos m in
      if (0 <=? e)%Z then (m' * 2 ^ e <=? count)%Z
      else (m' <=? count * 2 ^ (- e))%Z
  end.

Definition zsum (l : list Z) : Z := fold_right Z.add 0%Z l.

(** The loop over [file_types.items()]. *)
Fixpoint group_types (threshold : spec_float) (items : list (string * Z))
    (grouped_types : list (string * Z)) (other_count : Z)
  : list (string * Z) * Z :=
  match items with
  | [] => (grouped_types, other_count)
  | (ftype, count) :: rest =>
      if int_ge_float count threshold
      then group_types threshold rest
             (dict_set String.eqb ftype count grouped_types) other_count
      else group_types threshold rest grouped_types (other_count + count)%Z
  end.

Definition generate_file_types_chart : V series := fun self =>
  let file_types := file_types self in
  let total_files := zsum (values file_types) in
  match threshold_of total_files with
  | Err e => (Err e, self)
  | Ok threshold =>
      let '(grouped_types, other_count) :=
        group_types threshold file_types [] 0%Z in
      let grouped_types :=
        if (other_count >? 0)%Z
        then dict_set String.eqb "Other"%string other_count grouped_types
        else grouped_types in
      (Ok {| labels := keys grouped_types; heights := values grouped_types |},
       self)
  end.

(** ** [generate_contributors_chart] *)

(** [contributors] is the list object held by [self.stats]; [list.sort]
    reorders that object, so the document is updated. *)
Definition generate_contributors_chart : V series := fun self =>
  let contributors := sort by_contributions_desc (contributors self) in
  let self := {| repository := repository self;
                 analysis_period_days := analysis_period_days self;
                 total_commits := total_commits self;
                 commit_frequency := commit_frequency self;
                 authors := authors self;
                 file_types := file_types self;
                 contributors := contributors |} in
  let top_contributors := firstn 10 contributors in
  let names := map login top_contributors in
  let contributions := map contributions top_contributors in
  (Ok {| labels := names; heights := contributions |}, self).

(** ** [generate_authors_activity_chart] *)

Definition generate_authors_activity_chart : V series := fun self =>
  let authors := authors self in
  let sorted_authors := sort by_count_desc authors in
  let top_authors := firstn 8 sorted_authors in
  let names := map fst top_authors in
  let commits := map snd top_authors in
  (Ok {| labels := names; heights := commits |}, self).

(** ** [generate_all_charts] *)

Definition vbind {A B} (m : V A) (k : A -> V B) : V B := fun self =>
  match m self with
  | (Ok a, self') => k a self'
  | (Err e, self') => (Err e, self')
  end.

(** The four series, in the order of the dict the method builds. *)
Record charts : Type := {
  commit_frequency_chart : series;
  file_types_chart : series;
  contributors_chart : series;
  author_activity_chart : series
}.

Definition generate_all_charts : V charts :=
  vbind generate_commit_frequency_chart (fun cf =>
  vbind generate_file_types_chart (fun ft =>
  vbind generate_contributors_chart (fun ct =>
  vbind generate_authors_activity_chart (fun au => fun self =>
  (Ok {| commit_frequency_chart := cf;
         file_types_chart := ft;
         contributors_chart := ct;
         author_activity_chart := au |}, self))))).

(** ** [generate_html_report]

    The values the page interpolates from [self.stats], read after the
    charts are drawn; the fixed text of the page and the time stamp of
    its footer are not represented. *)
Record summary : Type := {
  title : string;
  period_days : Z;
  commits_total : Z;
  number_of_file_types : nat;
  number_of_contributors : nat
}.

Definition generate_html_report : V (charts * summary) :=
  vbind generate_all_charts (fun chart_paths => fun self =>
  (Ok (chart_paths,
       {| title := repository self;
          period_days := analysis_period_days self;
          commits_total := total_commits self;
          number_of_file_types := length (file_types self);
          number_of_contributors := length (contributors self) |}),
   self)).

(** ** Vocabulary of the statements about [StatsVisualizer] *)

(** Sorting and truncating, as [generate_contributors_chart] does. *)
Definition top_contributors (l : list contributor) : list contributor :=
  firstn 10 (sort by_contributions_desc l).

(** [a] may stand before [b] in a descending list. *)
Definition ge_contributions (a b : contributor) : Prop :=
  (contributions b <= contributions a)%Z.

(** [count] is at least 2% of [total]. *)
Definition two_percent_or_more (total count : Z) : bool :=
  (2 * total <=? 100 * count)%Z.

(** After [k] right shifts of the mantissa [M], a shift record holds the
    quotient by 2^k and places the remainder against half of 2^k. *)
Definition located (k : nat) (M : Z) (mrs : shr_record) : Prop :=
  shr_m mrs = (M / 2 ^ Z.of_nat k)%Z /\
  let rem := (M mod 2 ^ Z.of_nat k)%Z in
  match shr_r mrs, shr_s mrs with
  | false, false => rem = 0%Z
  | false, true => (0 < 2 * rem < 2 ^ Z.of_nat k)%Z
  | true, false => (2 * rem = 2 ^ Z.of_nat k)%Z
  | true, true => (2 ^ Z.of_nat k < 2 * rem)%Z
  end.

(** The categories at or above the threshold, and those below it. *)
Definition kept (threshold : spec_float) (items : list (string * Z))
  : list (string * Z) :=
  filter (fun kv => int_ge_float (snd kv) threshold) items.

Definition merged (threshold : spec_float) (items : list (string * Z))
  : list (string * Z) :=
  filter (fun kv => negb (int_ge_float (snd kv) threshold)) items.

(** The categories holding at least 2% of [total], and the others. *)
Definition own_slot (total : Z) (items : list (string * Z))
  : list (string * Z) :=
  filter (fun kv => two_percent_or_more total (snd kv)) items.

Definition below (total : Z) (items : list (string * Z))
  : list (string * Z) :=
  filter (fun kv => negb (two_percent_or_more total (snd kv))) items.

(** The document with its contributors replaced. *)
Definition with_contributors (self : stats) (l : list contributor) : stats :=
  {| repository := repository self;
     analysis_period_days := analysis_period_days self;
     total_commits := total_commits self;
     commit_frequency := commit_frequency self;
     authors := authors self;
     file_types := file_types self;
     contributors := l |}.

End StatsVisualizer.

(* ================================================================== *)
(** * Sample data                                                     *)
(* ================================================================== *)

Module Fixtures.
Import Py.

Definition commit_record (date name : string) : json :=
  JObj [("sha", JStr "7fd1a60b01f91b314f59955a4e4d4e80d8edf11d");
        ("commit",
         JObj [("author", JObj [("name", JStr name); ("date", JStr date)]);
               ("message", JStr "Fix all the bugs")])]%string.

Definition tree_entry (path type : string) : json :=
  JObj [("path", JStr path); ("type", JStr type)]%string.

Definition contributor_record (login : string) (n : Z) : json :=
  JObj [("login", JStr login); ("contributions", JNum n)]%string.

Definition page_of (n : nat) : list json :=
  repeat (commit_record "2024-01-03T10:00:00Z" "octocat") n.

Definition sample_tree : RepoStats.response :=
  {| RepoStats.status_code := 200;
     RepoStats.body :=
       Some (JObj [("sha", JStr "9fb037999f264ba9a7fc6274d15fa3ae2ab98312");
                   ("tree", JArr [tree_entry "src" "tree";
                                  tree_entry "src/main.rs" "blob";
                                  tree_entry "Makefile" "blob";
                                  tree_entry ".gitignore" "blob"])]%string) |}.

Definition sample_contributors : RepoStats.response :=
  {| RepoStats.status_code := 200;
     RepoStats.body :=
       Some (JArr [contributor_record "octocat" 32;
                   contributor_record "hubot" 5]%string) |}.

Definition not_found : RepoStats.response :=
  {| RepoStats.status_code := 404;
     RepoStats.body :=
       Some (JObj [("message", JStr "Not Found")]%string) |}.

Definition bad_gateway : RepoStats.response :=
  {| RepoStats.status_code := 502; RepoStats.body := None |}.

(** Pages of 100, 100 and 37 commits; every later page is empty. *)
Definition three_pages : RepoStats.provider :=
  {| RepoStats.commits_endpoint := fun page =>
       match page with
       | 1 | 2 => RepoStats.ok_page (page_of 100)
       | 3 => RepoStats.ok_page (page_of 37)
       | _ => RepoStats.ok_page []
       end;
     RepoStats.tree_endpoint := sample_tree;
     RepoStats.contributors_endpoint := sample_contributors |}.

Definition sample_pages (i : nat) : list json :=
  match i with
  | 1 | 2 => page_of 100
  | 3 => page_of 37
  | _ => []
  end.

(** The paths and types of [sample_tree]. *)
Definition sample_entries : list (string * string) :=
  [("src", "tree"); ("src/main.rs", "blob"); ("Makefile", "blob");
   (".gitignore", "blob")]%string.

(** A full first page, then a gateway error with an HTML body. *)
Definition broken_second_page : RepoStats.provider :=
  {| RepoStats.commits_endpoint := fun page =>
       match page with
       | 1 => RepoStats.ok_page (page_of 100)
       | _ => bad_gateway
       end;
     RepoStats.tree_endpoint := sample_tree;
     RepoStats.contributors_endpoint := sample_contributors |}.

(** Two commits; the tree and the contributors are not available. *)
Definition degraded : RepoStats.provider :=
  {| RepoStats.commits_endpoint := fun page =>
       match page with
       | 1 => RepoStats.ok_page
                [commit_record "2024-01-03T10:00:00Z" "octocat";
                 commit_record "2024-01-02T08:30:00Z" "hubot"]%string
       | _ => RepoStats.ok_page []
       end;
     RepoStats.tree_endpoint := not_found;
     RepoStats.contributors_endpoint := not_found |}.

(** The same commits where the tree and the contributors are served. *)
Definition served : RepoStats.provider :=
  {| RepoStats.commits_endpoint := RepoStats.commits_endpoint degraded;
     RepoStats.tree_endpoint := sample_tree;
     RepoStats.contributors_endpoint := sample_contributors |}.

(** The commits of [degraded], the other way round. *)
Definition degraded_reversed : RepoStats.provider :=
  {| RepoStats.commits_endpoint := fun page =>
       match page with
       | 1 => RepoStats.ok_page
                [commit_record "2024-01-02T08:30:00Z" "hubot";
                 commit_record "2024-01-03T10:00:00Z" "octocat"]%string
       | _ => RepoStats.ok_page []
       end;
     RepoStats.tree_endpoint := not_found;
     RepoStats.contributors_endpoint := not_found |}.

(** A commit record without [commit.author.name]. *)
Definition nameless : json :=
  JObj [("commit",
         JObj [("author", JObj [("date", JStr "2024-01-03T10:00:00Z")])])]
  %string.

Definition with_nameless : RepoStats.provider :=
  {| RepoStats.commits_endpoint := fun page =>
       match page with
       | 1 => RepoStats.ok_page
                [commit_record "2024-01-03T10:00:00Z" "octocat"; nameless;
                 commit_record "2024-01-02T08:30:00Z" "hubot"]%string
       | _ => RepoStats.ok_page []
       end;
     RepoStats.tree_endpoint := sample_tree;
     RepoStats.contributors_endpoint := sample_contributors |}.

(** Every page is full. *)
Definition endless : RepoStats.provider :=
  {| RepoStats.commits_endpoint := fun _ => RepoStats.ok_page (page_of 100);
     RepoStats.tree_endpoint := sample_tree;
     RepoStats.contributors_endpoint := sample_contributors |}.

Definition rate_limit_members : list (string * json) :=
  [("message", JStr "API rate limit exceeded");
   ("documentation_url", JStr "https://docs.github.com/rest")]%string.

(** A full first page, then a refusal with a JSON object as body. *)
Definition rate_limited : RepoStats.provider :=
  {| RepoStats.commits_endpoint := fun page =>
       match page with
       | 1 => RepoStats.ok_page (page_of 100)
       | _ => {| RepoStats.status_code := 403;
                 RepoStats.body := Some (JObj rate_limit_members) |}
       end;
     RepoStats.tree_endpoint := sample_tree;
     RepoStats.contributors_endpoint := sample_contributors |}.

(** The first page fails with a JSON list as body. *)
Definition error_list : RepoStats.provider :=
  {| RepoStats.commits_endpoint := fun _ =>
       {| RepoStats.status_code := 500;
          RepoStats.body := Some (JArr [JStr "internal error"]%string) |};
     RepoStats.tree_endpoint := sample_tree;
     RepoStats.contributors_endpoint := sample_contributors |}.

(** A tree whose second entry has no type. *)
Definition broken_tree : RepoStats.provider :=
  {| RepoStats.commits_endpoint := fun _ => RepoStats.ok_page [];
     RepoStats.tree_endpoint :=
       {| RepoStats.status_code := 200;
          RepoStats.body :=
            Some (JObj [("tree",
                         JArr [tree_entry "setup.py" "blob";
                               JObj [("path", JStr "docs")]])]%string) |};
     RepoStats.contributors_endpoint := sample_contributors |}.

Definition two_commits : list json :=
  [commit_record "2024-01-03T10:00:00Z" "octocat";
   commit_record "2024-01-02T08:30:00Z" "hubot"]%string.

Definition analyzer : RepoStats.RepoAnalyzer :=
  {| RepoStats.repo := "octocat/hello-world"; RepoStats.days := 30 |}.

Definition person (login : string) (n : Z) : StatsVisualizer.contributor :=
  {| StatsVisualizer.login := login; StatsVisualizer.contributions := n |}.

(** Fifteen contributors; [j] and [k] tie for the tenth place. *)
Definition fifteen : list StatsVisualizer.contributor :=
  [person "a" 15; person "b" 14; person "c" 13; person "d" 12;
   person "e" 11; person "f" 10; person "g" 9; person "h" 8; person "i" 7;
   person "j" 6; person "k" 6; person "l" 5; person "m" 4; person "n" 3;
   person "o" 2]%string.

Definition fifteen_shuffled : list StatsVisualizer.contributor :=
  [person "a" 15; person "b" 14; person "c" 13; person "d" 12;
   person "e" 11; person "f" 10; person "g" 9; person "h" 8; person "i" 7;
   person "k" 6; person "j" 6; person "l" 5; person "m" 4; person "n" 3;
   person "o" 2]%string.

(** Fifteen contributors with pairwise distinct counts, out of order. *)
Definition fifteen_distinct : list StatsVisualizer.contributor :=
  [person "c" 13; person "a" 15; person "b" 14; person "d" 12;
   person "e" 11; person "f" 10; person "g" 9; person "h" 8; person "i" 7;
   person "j" 6; person "k" 1; person "l" 5; person "m" 4; person "n" 3;
   person "o" 2]%string.

Definition document (file_types : list (string * Z))
    (contributors : list StatsVisualizer.contributor)
  : StatsVisualizer.stats :=
  {| StatsVisualizer.repository := "octocat/hello-world";
     StatsVisualizer.analysis_period_days := 30;
     StatsVisualizer.total_commits := 8;
     StatsVisualizer.commit_frequency :=
       [("2024-01-03", 2); ("2024-01-01", 5); ("2024-01-02", 1)]%string%Z;
     StatsVisualizer.authors := [("octocat", 6); ("hubot", 2)]%string%Z;
     StatsVisualizer.file_types := file_types;
     StatsVisualizer.contributors := contributors |}.

(** A document whose contributors are not in descending order. *)
Definition unsorted_document : StatsVisualizer.stats :=
  document [("py", 3)]%string%Z [person "hubot" 5; person "octocat" 32].

End Fixtures.
(* ================================================================== *)
(** * Properties of the aggregation                                   *)
(* ================================================================== *)

Section DictFacts.
Import Py.
Context {K : Type}.
Variable eqb : K -> K -> bool.
Hypothesis eqb_eq : forall a b, eqb a b = true <-> a = b.

Lemma dict_eqb_refl a : eqb a a = true.
Proof. now apply eqb_eq. Qed.

Lemma sum_values_incr k (d : list (K * nat)) :
  sum (values (dict_incr eqb k d)) = S (sum (values d)).
Proof.
  unfold values, sum.
  induction d as [|[k' n] d IH]; simpl; [reflexivity|].
  destruct (eqb k k'); simpl; [reflexivity|].
  rewrite IH. lia.
Qed.

Lemma dict_get_incr k k' (d : list (K * nat)) :
  dict_get eqb k (dict_incr eqb k' d) =
  if eqb k k' then Some (S (count_of eqb k d)) else dict_get eqb k d.
Proof.
  unfold count_of.
  induction d as [|[k0 n] d IH]; simpl.
  - destruct (eqb k k'); reflexivity.
  - destruct (eqb k' k0) eqn:E0; simpl.
    + apply eqb_eq in E0; subst k0.
      destruct (eqb k k'); reflexivity.
    + destruct (eqb k k0) eqn:E1.
      * destruct (eqb k k') eqn:E2; [|reflexivity].
        apply eqb_eq in E1, E2. subst. rewrite dict_eqb_refl in E0. discriminate.
      * exact IH.
Qed.

Lemma count_of_incr k k' (d : list (K * nat)) :
  count_of eqb k (dict_incr eqb k' d) =
  if eqb k k' then S (count_of eqb k d) else count_of eqb k d.
Proof.
  unfold count_of at 1. rewrite dict_get_incr.
  destruct (eqb k k'); reflexivity.
Qed.

Lemma same_mapping_refl (d : list (K * nat)) : RepoStats.same_mapping eqb d d.
Proof. intros k. reflexivity. Qed.

Lemma same_mapping_trans (d1 d2 d3 : list (K * nat)) :
  RepoStats.same_mapping eqb d1 d2 -> RepoStats.same_mapping eqb d2 d3 ->
  RepoStats.same_mapping eqb d1 d3.
Proof. intros H1 H2 k. now rewrite H1. Qed.

Lemma same_mapping_incr k' (d d' : list (K * nat)) :
  RepoStats.same_mapping eqb d d' ->
  RepoStats.same_mapping eqb (dict_incr eqb k' d) (dict_incr eqb k' d').
Proof.
  intros H k. rewrite !dict_get_incr. unfold count_of. now rewrite (H k).
Qed.

Lemma same_mapping_incr_swap a b (d : list (K * nat)) :
  RepoStats.same_mapping eqb
    (dict_incr eqb a (dict_incr eqb b d))
    (dict_incr eqb b (dict_incr eqb a d)).
Proof.
  intros k. rewrite !dict_get_incr, !count_of_incr.
  destruct (eqb k a), (eqb k b); reflexivity.
Qed.
End DictFacts.

Section Aggregation.
Import Py RepoStats.

Lemma pykey_eqb_eq a b : pykey_eqb a b = true <-> a = b.
Proof.
  destruct a, b; simpl; split; intros H; try discriminate; try reflexivity.
  - apply Z.eqb_eq in H. now subst.
  - inversion H. apply Z.eqb_refl.
  - apply String.eqb_eq in H. now subst.
  - inversion H. apply String.eqb_refl.
Qed.

Lemma count_commit_keys commit cd au :
  count_commit commit (cd, au) =
  rbind (commit_keys commit) (fun dk =>
    Ok (dict_incr String.eqb (fst dk) cd, dict_incr pykey_eqb (snd dk) au)).
Proof.
  unfold count_commit, commit_keys.
  destruct (getitem commit "commit") as [c|]; simpl; [|reflexivity].
  destruct (getitem c "author") as [a|]; simpl; [|reflexivity].
  destruct (getitem a "date") as [d|]; simpl; [|reflexivity].
  destruct (date_key d) as [date|]; simpl; [|reflexivity].
  destruct (getitem a "name") as [name|]; simpl; [|reflexivity].
  destruct (hashable name); reflexivity.
Qed.

Lemma count_commits_keys commits acc :
  count_commits commits acc =
  rbind (rmap commit_keys commits) (fun ks => Ok (tally ks acc)).
Proof.
  revert acc. induction commits as [|c cs IH]; intros [cd au].
  - reflexivity.
  - change (count_commits (c :: cs) (cd, au))
      with (rbind (count_commit c (cd, au)) (count_commits cs)).
    rewrite count_commit_keys. simpl.
    destruct (commit_keys c) as [[d k]|]; simpl; [|reflexivity].
    rewrite IH. destruct (rmap commit_keys cs); reflexivity.
Qed.

Lemma rmap_length {A B} (f : A -> result B) l ys :
  rmap f l = Ok ys -> length ys = length l.
Proof.
  revert ys. induction l as [|x l IH]; simpl; intros ys H.
  - now inversion H.
  - destruct (f x); simpl in H; [|discriminate].
    destruct (rmap f l); simpl in H; [|discriminate].
    inversion H; subst. simpl. f_equal. now apply IH.
Qed.

Lemma tally_sums ks acc :
  sum (values (fst (tally ks acc))) = sum (values (fst acc)) + length ks /\
  sum (values (snd (tally ks acc))) = sum (values (snd acc)) + length ks.
Proof.
  revert acc. unfold tally.
  induction ks as [|[d k] ks IH]; intros [cd au]; simpl.
  - lia.
  - destruct (IH (dict_incr String.eqb d cd, dict_incr pykey_eqb k au))
      as [H1 H2].
    rewrite H1, H2. simpl. rewrite !sum_values_incr. lia.
Qed.

Lemma count_commits_sums commits cd au :
  count_commits commits ([], []) = Ok (cd, au) ->
  sum (values cd) = length commits /\ sum (values au) = length commits.
Proof.
  rewrite count_commits_keys.
  destruct (rmap commit_keys commits) as [ks|] eqn:E; simpl; [|discriminate].
  intros H. inversion H as [H'].
  apply rmap_length in E. rewrite <- E.
  destruct (tally_sums ks ([], [])) as [H1 H2].
  rewrite H' in H1, H2. simpl in H1, H2. now split.
Qed.

Lemma tally_same ks acc acc' :
  same_counters acc acc' -> same_counters (tally ks acc) (tally ks acc').
Proof.
  revert acc acc'. unfold tally.
  induction ks as [|[d k] ks IH]; intros acc acc' [H1 H2]; simpl.
  - now split.
  - apply IH. split; simpl.
    + now apply same_mapping_incr; [apply String.eqb_eq|].
    + now apply same_mapping_incr; [apply pykey_eqb_eq|].
Qed.

Lemma tally_permutation ks ks' :
  Permutation ks ks' ->
  forall acc acc', same_counters acc acc' ->
    same_counters (tally ks acc) (tally ks' acc').
Proof.
  induction 1 as [|x l l' _ IH|x y l|l1 l2 l3 _ IH1 _ IH2];
    intros acc acc' Hacc.
  - exact Hacc.
  - unfold tally in *. simpl. apply IH. destruct Hacc as [H1 H2].
    split; simpl.
    + now apply same_mapping_incr; [apply String.eqb_eq|].
    + now apply same_mapping_incr; [apply pykey_eqb_eq|].
  - unfold tally. simpl. apply tally_same. destruct Hacc as [H1 H2].
    split; simpl.
    + eapply same_mapping_trans.
      * apply same_mapping_incr_swap. apply String.eqb_eq.
      * do 2 (apply same_mapping_incr; [apply String.eqb_eq|]). exact H1.
    + eapply same_mapping_trans.
      * apply same_mapping_incr_swap. apply pykey_eqb_eq.
      * do 2 (apply same_mapping_incr; [apply pykey_eqb_eq|]). exact H2.
  - destruct (IH1 acc acc' Hacc) as [A1 A2].
    destruct (IH2 acc' acc') as [B1 B2].
    { split; apply same_mapping_refl. }
    split; eapply same_mapping_trans; eauto.
Qed.

Lemma rmap_permutation {A B} (f : A -> result B) l l' ys :
  Permutation l l' -> rmap f l = Ok ys ->
  exists ys', rmap f l' = Ok ys' /\ Permutation ys ys'.
Proof.
  intros HP. revert ys.
  induction HP as [|x l l' _ IH|x y l|l1 l2 l3 _ IH1 _ IH2]; intros ys H.
  - exists ys. split; [exact H|apply Permutation_refl].
  - simpl in *. destruct (f x) as [b|]; simpl in *; [|discriminate].
    destruct (rmap f l) as [bs|]; simpl in *; [|discriminate].
    inversion H; subst. destruct (IH bs eq_refl) as [bs' [E P]].
    rewrite E. simpl. exists (b :: bs'). split; [reflexivity|].
    now apply perm_skip.
  - simpl in *. destruct (f y) as [b|]; simpl in *; [|discriminate].
    destruct (f x) as [a|]; simpl in *; [|discriminate].
    destruct (rmap f l) as [bs|]; simpl in *; [|discriminate].
    inversion H; subst. exists (a :: b :: bs). split; [reflexivity|].
    apply perm_swap.
  - destruct (IH1 ys H) as [ys1 [E1 P1]].
    destruct (IH2 ys1 E1) as [ys2 [E2 P2]].
    exists ys2. split; [exact E2|]. eapply Permutation_trans; eauto.
Qed.

Lemma count_commits_permutation commits commits' cd au :
  Permutation commits commits' ->
  count_commits commits ([], []) = Ok (cd, au) ->
  exists cd' au',
    count_commits commits' ([], []) = Ok (cd', au') /\
    same_mapping String.eqb cd cd' /\ same_mapping pykey_eqb au au'.
Proof.
  intros HP. rewrite !count_commits_keys.
  destruct (rmap commit_keys commits) as [ks|] eqn:E; simpl; [|discriminate].
  intros H. inversion H as [H'].
  destruct (rmap_permutation _ _ _ _ HP E) as [ks' [E' P]].
  rewrite E'. simpl.
  destruct (tally ks' ([], [])) as [cd' au'] eqn:T.
  exists cd', au'. split; [reflexivity|].
  pose proof (tally_permutation ks ks' P ([], []) ([], [])) as S.
  rewrite H', T in S. apply S. split; apply same_mapping_refl.
Qed.

(** [generate_report], phase by phase. *)
Lemma generate_report_eq self fuel api log :
  generate_report self fuel api log =
  match get_commits fuel api
          (log ++ [Print_analyzing (repo self) (days self)]) with
  | (Returns commits, l1) =>
      match count_commits commits ([], []) with
      | Ok (cd, au) =>
          match get_file_types api l1 with
          | (Returns ft, l2) =>
              match get_contributors api l2 with
              | (Returns cv, l3) =>
                  match rbind (first_ten cv) (fun top =>
                        rbind (iterate top) (rmap contributor_entry)) with
                  | Ok entries =>
                      (Returns {| repository := repo self;
                                  analysis_period_days := days self;
                                  total_commits := length commits;
                                  commit_frequency := cd;
                                  authors := au;
                                  file_types := ft;
                                  contributors := entries |}, l3)
                  | Err e => (Raises e, l3)
                  end
              | (Raises e, l3) => (Raises e, l3)
              | (Timeout, l3) => (Timeout, l3)
              end
          | (Raises e, l2) => (Raises e, l2)
          | (Timeout, l2) => (Timeout, l2)
          end
      | Err e => (Raises e, l1)
      end
  | (Raises e, l1) => (Raises e, l1)
  | (Timeout, l1) => (Timeout, l1)
  end.
Proof.
  unfold generate_report, bind, emit, lift, ret, raise.
  destruct (get_commits fuel api _) as [[commits|e|] l1]; try reflexivity.
  destruct (count_commits commits ([], [])) as [[cd au]|e]; try reflexivity.
  destruct (get_file_types api l1) as [[ft|e|] l2]; try reflexivity.
  destruct (get_contributors api l2) as [[cv|e|] l3]; try reflexivity.
  destruct (first_ten cv) as [top|e]; simpl; try reflexivity.
  destruct (iterate top) as [cs|e]; simpl; try reflexivity.
  destruct (rmap contributor_entry cs); reflexivity.
Qed.

(** *** The log only grows *)

Lemma framed_ret {A} (a : A) : framed (ret a).
Proof. intros log. unfold ret, run, trace. simpl. now rewrite app_nil_r. Qed.

Lemma framed_raise {A} e : framed (@raise A e).
Proof. intros log. unfold raise, run, trace. simpl. now rewrite app_nil_r. Qed.

Lemma framed_timeout {A} : framed (@timeout A).
Proof. intros log. unfold timeout, run, trace. simpl. now rewrite app_nil_r. Qed.

Lemma framed_emit ev : framed (emit ev).
Proof. intros log. reflexivity. Qed.

Lemma framed_lift {A} (r : result A) : framed (lift r).
Proof. destruct r; [apply framed_ret|apply framed_raise]. Qed.

Lemma framed_bind {A B} (m : M A) (k : A -> M B) :
  framed m -> (forall a, framed (k a)) -> framed (bind m k).
Proof.
  intros Hm Hk log. unfold run, trace, bind.
  rewrite (Hm log), (Hm []). simpl.
  destruct (run m) as [a| |]; simpl.
  - rewrite (Hk a (log ++ trace m)), (Hk a (trace m)). simpl.
    now rewrite app_assoc.
  - reflexivity.
  - reflexivity.
Qed.

Lemma framed_response_json r : framed (response_json r).
Proof.
  unfold response_json. destruct (body r);
    [apply framed_ret|apply framed_raise].
Qed.

Ltac framed_step :=
  first [ apply framed_ret | apply framed_raise | apply framed_timeout
        | apply framed_emit | apply framed_lift | apply framed_response_json
        | apply framed_bind; [|intros ?] ].

Lemma framed_get_commits_loop fuel api all_commits page :
  framed (get_commits_loop fuel api all_commits page).
Proof.
  revert all_commits page.
  induction fuel as [|fuel IH]; intros all_commits page; simpl.
  - apply framed_timeout.
  - framed_step; [framed_step|].
    destruct (negb _).
    + repeat framed_step.
    + framed_step; [framed_step|].
      destruct (negb _); [framed_step|].
      framed_step; [framed_step|].
      framed_step; [framed_step|].
      destruct (_ <? _); [framed_step|apply IH].
Qed.

Lemma framed_get_commits fuel api : framed (get_commits fuel api).
Proof. apply framed_get_commits_loop. Qed.

Lemma framed_get_file_types api : framed (get_file_types api).
Proof.
  unfold get_file_types. framed_step; [framed_step|].
  destruct (negb _); repeat framed_step.
Qed.

Lemma framed_get_contributors api : framed (get_contributors api).
Proof.
  unfold get_contributors. framed_step; [framed_step|].
  destruct (negb _); repeat framed_step.
Qed.

Lemma framed_generate_report self fuel api :
  framed (generate_report self fuel api).
Proof.
  unfold generate_report. framed_step; [framed_step|].
  framed_step; [apply framed_get_commits|].
  apply framed_bind; [apply framed_lift|intros [cd au]].
  framed_step; [apply framed_get_file_types|].
  framed_step; [apply framed_get_contributors|].
  repeat framed_step.
Qed.

Lemma generate_report_run self fuel api :
  run (generate_report self fuel api) =
  match run (get_commits fuel api) with
  | Returns commits =>
      match count_commits commits ([], []) with
      | Ok (cd, au) =>
          match run (get_file_types api) with
          | Returns ft =>
              match run (get_contributors api) with
              | Returns cv =>
                  match rbind (first_ten cv) (fun top =>
                        rbind (iterate top) (rmap contributor_entry)) with
                  | Ok entries =>
                      Returns {| repository := repo self;
                                 analysis_period_days := days self;
                                 total_commits := length commits;
                                 commit_frequency := cd;
                                 authors := au;
                                 file_types := ft;
                                 contributors := entries |}
                  | Err e => Raises e
                  end
              | Raises e => Raises e
              | Timeout => Timeout
              end
          | Raises e => Raises e
          | Timeout => Timeout
          end
      | Err e => Raises e
      end
  | Raises e => Raises e
  | Timeout => Timeout
  end.
Proof.
  unfold run at 1. rewrite generate_report_eq.
  rewrite (framed_get_commits fuel api). simpl.
  destruct (run (get_commits fuel api)) as [commits|e|]; try reflexivity.
  destruct (count_commits commits ([], [])) as [[cd au]|e]; try reflexivity.
  rewrite (framed_get_file_types api).
  destruct (run (get_file_types api)) as [ft|e|]; try reflexivity.
  rewrite (framed_get_contributors api).
  destruct (run (get_contributors api)) as [cv|e|]; try reflexivity.
  destruct (rbind (first_ten cv) _); reflexivity.
Qed.

(** C1. In every report that [generate_report] returns, the values of
    [commit_frequency] add up to [total_commits], and so do the values
    of [authors]. *)
Theorem report_counts_agree self fuel api r :
  run (generate_report self fuel api) = Returns r ->
  sum (values (commit_frequency r)) = total_commits r /\
  total_commits r = sum (values (authors r)).
Proof.
  rewrite generate_report_run.
  destruct (run (get_commits fuel api)) as [commits|e|]; try discriminate.
  destruct (count_commits commits ([], [])) as [[cd au]|e] eqn:E;
    try discriminate.
  destruct (run (get_file_types api)) as [ft|e|]; try discriminate.
  destruct (run (get_contributors api)) as [cv|e|]; try discriminate.
  destruct (rbind (first_ten cv) _) as [entries|e]; try discriminate.
  intros H. inversion H; subst; simpl.
  apply count_commits_sums in E. destruct E as [E1 E2]. now rewrite E1, E2.
Qed.

(** C9. Two runs whose fetched commit lists are permutations of one
    another, the other two endpoints answering alike: when one returns a
    report so does the other, with the same [commit_frequency] and the
    same [authors] as mappings and the same [total_commits]. *)
Theorem aggregation_order_independent
    self fuel fuel' api api' commits commits' r :
  run (get_commits fuel api) = Returns commits ->
  run (get_commits fuel' api') = Returns commits' ->
  Permutation commits commits' ->
  tree_endpoint api' = tree_endpoint api ->
  contributors_endpoint api' = contributors_endpoint api ->
  run (generate_report self fuel api) = Returns r ->
  exists r',
    run (generate_report self fuel' api') = Returns r' /\
    same_mapping String.eqb (commit_frequency r) (commit_frequency r') /\
    same_mapping pykey_eqb (authors r) (authors r') /\
    total_commits r = total_commits r'.
Proof.
  intros Hc Hc' HP Ht Hk. rewrite !generate_report_run, Hc, Hc'.
  destruct (count_commits commits ([], [])) as [[cd au]|e] eqn:E;
    [|discriminate].
  destruct (count_commits_permutation _ _ _ _ HP E)
    as [cd' [au' [E' [S1 S2]]]].
  rewrite E'.
  assert (Hft : run (get_file_types api') = run (get_file_types api)).
  { unfold run, get_file_types. now rewrite Ht. }
  assert (Hct : run (get_contributors api') = run (get_contributors api)).
  { unfold run, get_contributors. now rewrite Hk. }
  rewrite Hft, Hct.
  destruct (run (get_file_types api)) as [ft|e|]; try discriminate.
  destruct (run (get_contributors api)) as [cv|e|]; try discriminate.
  destruct (rbind (first_ten cv) _) as [entries|e]; try discriminate.
  intros H. inversion H; subst; clear H. eexists. split; [reflexivity|].
  simpl. repeat split; try assumption.
  now apply Permutation_length.
Qed.

(** *** Records that carry, or lack, the two members *)

Lemma missing_getitem v k : missing v k -> getitem v k = Err (KeyError k).
Proof. intros [members [-> H]]. simpl. now rewrite H. Qed.

Lemma well_formed_keys commit :
  well_formed commit -> exists dk, commit_keys commit = Ok dk.
Proof.
  intros [c [a [date [name [H1 [H2 [H3 H4]]]]]]].
  unfold commit_keys. rewrite H1. simpl. rewrite H2. simpl.
  rewrite H3. simpl. rewrite H4. simpl. eexists. reflexivity.
Qed.

Lemma lacks_field_keys commit k :
  lacks_field commit k -> commit_keys commit = Err (KeyError k).
Proof.
  unfold commit_keys.
  intros [[-> H]|[c [H1 [[-> H]|[a [H2 [[-> H]|[-> [H [date H3]]]]]]]]]].
  - now rewrite (missing_getitem _ _ H).
  - rewrite H1. simpl. now rewrite (missing_getitem _ _ H).
  - rewrite H1. simpl. rewrite H2. simpl.
    now rewrite (missing_getitem _ _ H).
  - rewrite H1. simpl. rewrite H2. simpl. rewrite H3. simpl.
    now rewrite (missing_getitem _ _ H).
Qed.

Lemma has_fields_keys commit k :
  has_fields commit -> commit_keys commit <> Err (KeyError k).
Proof.
  intros [c [a [date [name [H1 [H2 [H3 H4]]]]]]].
  unfold commit_keys. rewrite H1. simpl. rewrite H2. simpl.
  rewrite H3. simpl.
  destruct date; simpl; try discriminate.
  rewrite H4. simpl. destruct name; simpl; discriminate.
Qed.

Lemma rmap_all_ok {A B} (f : A -> result B) l :
  Forall (fun x => exists y, f x = Ok y) l -> exists ys, rmap f l = Ok ys.
Proof.
  induction 1 as [|x l [y Hy] _ [ys IH]]; simpl.
  - now exists [].
  - rewrite Hy, IH. simpl. now eexists.
Qed.

Lemma rmap_first_error {A B} (f : A -> result B) pre x post e :
  Forall (fun x => exists y, f x = Ok y) pre -> f x = Err e ->
  rmap f (pre ++ x :: post) = Err e.
Proof.
  induction 1 as [|a pre [y Hy] _ IH]; intros Hx; simpl.
  - now rewrite Hx.
  - rewrite Hy. simpl. now rewrite (IH Hx).
Qed.

Lemma rmap_error {A B} (f : A -> result B) l e :
  rmap f l = Err e -> exists x, In x l /\ f x = Err e.
Proof.
  induction l as [|a l IH]; simpl; [discriminate|].
  destruct (f a) as [y|e'] eqn:E; simpl.
  - destruct (rmap f l) as [ys|e']; simpl; [discriminate|].
    intros H. inversion H; subst. destruct (IH eq_refl) as [x [Hin Hx]].
    exists x. split; [now right|exact Hx].
  - intros H. inversion H; subst. exists a. split; [now left|exact E].
Qed.

Lemma rmap_ok_or_error {A B} (f : A -> result B) l :
  (exists ys, rmap f l = Ok ys) \/
  (exists pre x post e, l = pre ++ x :: post /\
     Forall (fun x => exists y, f x = Ok y) pre /\ f x = Err e).
Proof.
  induction l as [|a l IH].
  - left. now exists [].
  - destruct (f a) as [y|e] eqn:E.
    + destruct IH as [[ys H]|[pre [x [post [e [-> [HF Hx]]]]]]].
      * left. simpl. rewrite E, H. simpl. now eexists.
      * right. exists (a :: pre), x, post, e. repeat split; try assumption.
        constructor; [now exists y|assumption].
    + right. exists [], a, l, e. repeat split; [constructor|assumption].
Qed.

Lemma generate_report_loop_error self fuel api commits e :
  run (get_commits fuel api) = Returns commits ->
  count_commits commits ([], []) = Err e ->
  run (generate_report self fuel api) = Raises e.
Proof. intros Hc He. now rewrite generate_report_run, Hc, He. Qed.

(** C10. The loop over the fetched commits completes when every record
    carries a date and a name under [commit.author]; with the two members
    merely present, no lookup of the loop raises [KeyError].  A record
    that lacks a member makes [generate_report] raise [KeyError] for that
    member: the record is not skipped. *)
Theorem aggregation_needs_fields self fuel api commits :
  run (get_commits fuel api) = Returns commits ->
  (Forall has_fields commits ->
     forall k, count_commits commits ([], []) <> Err (KeyError k)) /\
  (Forall well_formed commits ->
     exists cd au, count_commits commits ([], []) = Ok (cd, au)) /\
  (forall pre c post k,
     commits = pre ++ c :: post -> Forall well_formed pre ->
     lacks_field c k ->
     run (generate_report self fuel api) = Raises (KeyError k)) /\
  ((forall c, In c commits -> well_formed c \/ exists k, lacks_field c k) ->
   (exists c k, In c commits /\ lacks_field c k) ->
   exists k, run (generate_report self fuel api) = Raises (KeyError k)).
Proof.
  intros Hc. repeat split.
  - intros HF k H. rewrite count_commits_keys in H.
    destruct (rmap commit_keys commits) as [ks|e] eqn:E; simpl in H;
      [discriminate|].
    inversion H; subst. apply rmap_error in E. destruct E as [x [Hin Hx]].
    rewrite Forall_forall in HF. exact (has_fields_keys x k (HF x Hin) Hx).
  - intros HF. rewrite count_commits_keys.
    destruct (rmap_all_ok commit_keys commits) as [ks E].
    { eapply Forall_impl; [|exact HF]. intros c. apply well_formed_keys. }
    rewrite E. simpl. destruct (tally ks ([], [])) as [cd au].
    now exists cd, au.
  - intros pre c post k -> HF HL.
    apply (generate_report_loop_error _ _ _ _ _ Hc).
    rewrite count_commits_keys.
    rewrite (rmap_first_error commit_keys pre c post (KeyError k));
      [reflexivity| |now apply lacks_field_keys].
    eapply Forall_impl; [|exact HF]. intros x. apply well_formed_keys.
  - intros Hall [c [k [Hin HL]]].
    destruct (rmap_ok_or_error commit_keys commits)
      as [[ks E]|[pre [x [post [e [Heq [HF Hx]]]]]]].
    + exfalso. apply lacks_field_keys in HL.
      apply in_split in Hin. destruct Hin as [l1 [l2 ->]].
      clear - E HL. revert ks E. induction l1 as [|a l1 IH]; simpl; intros.
      * rewrite HL in E. discriminate.
      * destruct (commit_keys a); simpl in E; [|discriminate].
        destruct (rmap commit_keys (l1 ++ c :: l2)); simpl in E;
          [|discriminate].
        eapply IH. reflexivity.
    + assert (Hx' : In x commits).
      { rewrite Heq. apply in_or_app. right. now left. }
      destruct (Hall x Hx') as [Hw|[k' Hk']].
      * apply well_formed_keys in Hw. destruct Hw as [dk Hw].
        rewrite Hw in Hx. discriminate.
      * exists k'. apply (generate_report_loop_error _ _ _ _ _ Hc).
        rewrite count_commits_keys, Heq.
        rewrite (rmap_first_error commit_keys pre x post (KeyError k'));
          [reflexivity|exact HF|now apply lacks_field_keys].
Qed.
End Aggregation.

(* ================================================================== *)
(** * Properties of the three fetches                                 *)
(* ================================================================== *)

Section Fetching.
Import Py RepoStats.

(** One turn of the loop on a full page, and on the last page. *)
Lemma get_commits_loop_full fuel api all_commits page items log :
  commits_endpoint api page = ok_page items ->
  length items = per_page ->
  get_commits_loop (S fuel) api all_commits page log =
  get_commits_loop fuel api (all_commits ++ items) (S page)
    (log ++ [Get_commits page]).
Proof.
  intros Hr Hl. simpl. unfold bind, emit. rewrite Hr. simpl.
  destruct items as [|x items]; [discriminate|]. simpl.
  simpl in Hl. rewrite Hl. reflexivity.
Qed.

Lemma get_commits_loop_last fuel api all_commits page items log :
  commits_endpoint api page = ok_page items ->
  length items < per_page ->
  get_commits_loop (S fuel) api all_commits page log =
  (Returns (all_commits ++ items), log ++ [Get_commits page]).
Proof.
  intros Hr Hl. simpl. unfold bind, emit. rewrite Hr. simpl.
  destruct items as [|x items]; simpl.
  - now rewrite app_nil_r.
  - apply Nat.ltb_lt in Hl. simpl in Hl. now rewrite Hl.
Qed.

(** A run of full pages, whatever comes after them. *)
Lemma get_commits_loop_prefix api pages k :
  forall fuel all_commits page log,
    (forall i, page <= i < page + k ->
       commits_endpoint api i = ok_page (pages i) /\
       length (pages i) = per_page) ->
    get_commits_loop (k + fuel) api all_commits page log =
    get_commits_loop fuel api
      (all_commits ++ flat_map pages (seq page k)) (page + k)
      (log ++ map Get_commits (seq page k)).
Proof.
  induction k as [|k IH]; intros fuel all_commits page log Hfull.
  - simpl. now rewrite !app_nil_r, Nat.add_0_r.
  - destruct (Hfull page) as [Hp Hl]; [lia|].
    change (S k + fuel) with (S (k + fuel)).
    rewrite (get_commits_loop_full _ _ _ _ _ _ Hp Hl).
    rewrite IH by (intros i Hi; apply Hfull; lia).
    cbn [seq flat_map map]. rewrite <- !app_assoc.
    now replace (S page + k) with (page + S k) by lia.
Qed.

Lemma get_commits_loop_pages api pages k :
  forall fuel all_commits page log,
    (forall i, page <= i < page + k ->
       commits_endpoint api i = ok_page (pages i) /\
       length (pages i) = per_page) ->
    commits_endpoint api (page + k) = ok_page (pages (page + k)) ->
    length (pages (page + k)) < per_page ->
    k < fuel ->
    get_commits_loop fuel api all_commits page log =
    (Returns (all_commits ++ flat_map pages (seq page (S k))),
     log ++ map Get_commits (seq page (S k))).
Proof.
  intros fuel all_commits page log Hfull Hlast Hlen Hf.
  replace fuel with (k + S (fuel - S k)) by lia.
  rewrite (get_commits_loop_prefix api pages k) by exact Hfull.
  rewrite (get_commits_loop_last _ _ _ _ _ _ Hlast Hlen).
  rewrite seq_S, flat_map_app, map_app. simpl.
  now rewrite app_nil_r, <- !app_assoc.
Qed.

(** One turn of the loop on a response that is not a success. *)
Lemma get_commits_loop_failed fuel api all_commits page log :
  (status_code (commits_endpoint api page) =? 200)%Z = false ->
  get_commits_loop (S fuel) api all_commits page log =
  let response := commits_endpoint api page in
  let log' := log ++ [Get_commits page]
                  ++ [Print_error "Error fetching commits"
                        (status_code response)] in
  match body response with
  | None => (Raises JSONDecodeError, log')
  | Some doc =>
      match get_default doc "message" (JStr "Unknown error") with
      | Ok msg => (Returns all_commits, log' ++ [Print_value msg])
      | Err e => (Raises e, log')
      end
  end.
Proof.
  intros Hs. simpl. unfold bind, emit, response_json, lift, ret, raise.
  rewrite Hs. simpl. rewrite <- !app_assoc. simpl.
  destruct (body (commits_endpoint api page)) as [doc|]; [|reflexivity].
  destruct (get_default doc "message" (JStr "Unknown error"));
    [|reflexivity].
  now rewrite <- !app_assoc.
Qed.

Lemma requested_pages_gets l :
  requested_pages (map Get_commits l) = l.
Proof. induction l as [|p l IH]; simpl; [reflexivity|now rewrite IH]. Qed.

(** C2. When pages 1 to k-1 answer 200 with 100 items each and page k
    answers 200 with fewer than 100 items (possibly none), the fetch
    returns the items of pages 1 to k in order, and requests exactly the
    pages 1, 2, ..., k, each once.  With pages of 100, 100 and 37 items
    it returns 237 items after three requests. *)
Theorem paginated_fetch api pages k fuel :
  1 <= k ->
  (forall i, 1 <= i <= k -> commits_endpoint api i = ok_page (pages i)) ->
  (forall i, 1 <= i < k -> length (pages i) = per_page) ->
  length (pages k) < per_page ->
  k <= fuel ->
  run (get_commits fuel api) = Returns (flat_map pages (seq 1 k)) /\
  trace (get_commits fuel api) = map Get_commits (seq 1 k) /\
  requested_pages (trace (get_commits fuel api)) = seq 1 k /\
  NoDup (requested_pages (trace (get_commits fuel api))) /\
  (k = 3 -> length (pages 3) = 37 ->
     exists commits,
       run (get_commits fuel api) = Returns commits /\
       length commits = 237 /\
       length (requested_pages (trace (get_commits fuel api))) = 3).
Proof.
  intros Hk Hok Hfull Hlast Hfuel.
  destruct k as [|k]; [lia|].
  assert (E : get_commits fuel api [] =
              (Returns (flat_map pages (seq 1 (S k))),
               map Get_commits (seq 1 (S k)))).
  { unfold get_commits.
    rewrite (get_commits_loop_pages api pages k fuel [] 1 []);
      [reflexivity| | | |lia].
    - intros i Hi. split; [apply Hok|apply Hfull]; lia.
    - apply Hok. lia.
    - exact Hlast. }
  unfold run, trace. rewrite E. cbn [fst snd].
  rewrite requested_pages_gets.
  repeat split.
  - apply seq_NoDup.
  - intros Hk3 H37. eexists. split; [reflexivity|]. split.
    + injection Hk3 as ->. simpl. rewrite !length_app.
      rewrite (Hfull 1), (Hfull 2), H37 by lia. reflexivity.
    + now rewrite length_seq.
Qed.

(** The failing page ends the fetch; what it ends with depends on the
    body of the failing response. *)
Lemma failed_page api pages k fuel :
  (forall i, 1 <= i <= k ->
     commits_endpoint api i = ok_page (pages i) /\
     length (pages i) = per_page) ->
  (status_code (commits_endpoint api (S k)) =? 200)%Z = false ->
  k < fuel ->
  let response := commits_endpoint api (S k) in
  let fetched := flat_map pages (seq 1 k) in
  let requests := map Get_commits (seq 1 (S k)) in
  let diagnostic :=
    Print_error "Error fetching commits" (status_code response) in
  get_commits fuel api [] =
  match body response with
  | None => (Raises JSONDecodeError, requests ++ [diagnostic])
  | Some doc =>
      match get_default doc "message" (JStr "Unknown error") with
      | Ok msg =>
          (Returns fetched, requests ++ [diagnostic; Print_value msg])
      | Err e => (Raises e, requests ++ [diagnostic])
      end
  end.
Proof.
  intros Hfull Hs Hf. unfold get_commits.
  replace fuel with (k + S (fuel - S k)) by lia.
  rewrite (get_commits_loop_prefix api pages k)
    by (intros i Hi; apply Hfull; lia).
  change (1 + k) with (S k).
  rewrite (get_commits_loop_failed _ _ _ _ _ Hs). cbv zeta.
  rewrite seq_S, map_app. simpl.
  destruct (body (commits_endpoint api (S k))) as [doc|];
    [|now rewrite <- !app_assoc].
  destruct (get_default doc "message" (JStr "Unknown error"));
    now rewrite <- !app_assoc.
Qed.

(** When the failing response carries a JSON object, the items of the
    earlier pages are returned and the message is printed. *)
Lemma partial_results_kept api pages k fuel members :
  (forall i, 1 <= i <= k ->
     commits_endpoint api i = ok_page (pages i) /\
     length (pages i) = per_page) ->
  (status_code (commits_endpoint api (S k)) =? 200)%Z = false ->
  body (commits_endpoint api (S k)) = Some (JObj members) ->
  k < fuel ->
  run (get_commits fuel api) = Returns (flat_map pages (seq 1 k)) /\
  requested_pages (trace (get_commits fuel api)) = seq 1 (S k).
Proof.
  intros Hfull Hs Hb Hf. unfold run, trace.
  rewrite (failed_page api pages k fuel Hfull Hs Hf). cbv zeta.
  rewrite Hb. simpl get_default.
  destruct (dict_get String.eqb "message"%string members); cbn [fst snd];
    (split; [reflexivity|]);
    unfold requested_pages; rewrite flat_map_app;
    fold (requested_pages (map Get_commits (seq 1 (S k))));
    rewrite requested_pages_gets; simpl; now rewrite app_nil_r.
Qed.

(** C7. A full first page followed by a second page that fails with a
    body that is not JSON: [get_commits] raises, and the 100 items of
    the first page are not returned. *)
Theorem failed_page_without_json api items code fuel :
  commits_endpoint api 1 = ok_page items ->
  length items = per_page ->
  commits_endpoint api 2 = {| status_code := code; body := None |} ->
  code <> 200%Z ->
  1 < fuel ->
  run (get_commits fuel api) = Raises JSONDecodeError.
Proof.
  intros H1 Hl H2 Hc Hf. unfold run.
  rewrite (failed_page api (fun _ => items) 1 fuel).
  - rewrite H2. reflexivity.
  - intros i Hi. replace i with 1 by lia. now split.
  - rewrite H2. simpl. now apply Z.eqb_neq.
  - exact Hf.
Qed.

Lemma get_file_types_failed api :
  status_code (tree_endpoint api) <> 200%Z ->
  run (get_file_types api) = Returns [].
Proof.
  intros H. apply Z.eqb_neq in H.
  unfold run, get_file_types, bind, emit, ret. simpl. now rewrite H.
Qed.

Lemma get_contributors_failed api :
  status_code (contributors_endpoint api) <> 200%Z ->
  run (get_contributors api) = Returns (JArr []).
Proof.
  intros H. apply Z.eqb_neq in H.
  unfold run, get_contributors, bind, emit, ret. simpl. now rewrite H.
Qed.

(** C8. On a status other than 200 the tree fetch returns an empty
    counter and the contributor fetch an empty list, neither raises,
    and the report of the run, whose other phases succeed, carries an
    empty [file_types], respectively an empty [contributors]. *)
Theorem failed_fetches_give_empty_results api :
  (status_code (tree_endpoint api) <> 200%Z ->
     run (get_file_types api) = Returns [] /\
     forall self fuel commits cd au cv entries,
       run (get_commits fuel api) = Returns commits ->
       count_commits commits ([], []) = Ok (cd, au) ->
       run (get_contributors api) = Returns cv ->
       rbind (first_ten cv) (fun top =>
         rbind (iterate top) (rmap contributor_entry)) = Ok entries ->
       run (generate_report self fuel api) =
       Returns {| repository := repo self;
                  analysis_period_days := days self;
                  total_commits := length commits;
                  commit_frequency := cd;
                  authors := au;
                  file_types := [];
                  contributors := entries |}) /\
  (status_code (contributors_endpoint api) <> 200%Z ->
     run (get_contributors api) = Returns (JArr []) /\
     forall self fuel commits cd au ft,
       run (get_commits fuel api) = Returns commits ->
       count_commits commits ([], []) = Ok (cd, au) ->
       run (get_file_types api) = Returns ft ->
       run (generate_report self fuel api) =
       Returns {| repository := repo self;
                  analysis_period_days := days self;
                  total_commits := length commits;
                  commit_frequency := cd;
                  authors := au;
                  file_types := ft;
                  contributors := [] |}).
Proof.
  split; intros H.
  - split; [now apply get_file_types_failed|].
    intros self fuel commits cd au cv entries Hc Hn Hk He.
    rewrite generate_report_run, Hc, Hn, (get_file_types_failed api H), Hk.
    now rewrite He.
  - split; [now apply get_contributors_failed|].
    intros self fuel commits cd au ft Hc Hn Hf.
    rewrite generate_report_run, Hc, Hn, Hf.
    now rewrite (get_contributors_failed api H).
Qed.
End Fetching.

(* ================================================================== *)
(** * Properties of the extension token                               *)
(* ================================================================== *)

Section Extensions.
Import Py RepoStats.

Lemma after_last_split c p r :
  after_last c p = Some r ->
  exists pre, p = pre ++ c :: r /\ after_last c r = None.
Proof.
  revert r. induction p as [|a p IH]; simpl; intros r H; [discriminate|].
  destruct (after_last c p) as [r'|] eqn:E.
  - inversion H; subst. destruct (IH r eq_refl) as [pre [-> Hr]].
    now exists (a :: pre).
  - destruct (Ascii.eqb a c) eqn:Ea; [|discriminate].
    inversion H; subst. apply Ascii.eqb_eq in Ea. subst.
    now exists [].
Qed.

Lemma after_last_app c l1 l2 :
  after_last c (l1 ++ l2) =
  match after_last c l2 with
  | Some r => Some r
  | None => option_map (fun r => r ++ l2) (after_last c l1)
  end.
Proof.
  induction l1 as [|a l1 IH]; simpl.
  - now destruct (after_last c l2).
  - rewrite IH. destruct (after_last c l2); [reflexivity|].
    destruct (after_last c l1); simpl; [reflexivity|].
    now destruct (Ascii.eqb a c).
Qed.

Lemma after_last_tail c a p :
  after_last c (a :: p) = None -> after_last c p = None.
Proof. simpl. now destruct (after_last c p). Qed.

Lemma rfind_from_after_last c p :
  forall i found,
    rfind_from c p i found =
    match after_last c p with
    | Some r => (i + Z.of_nat (length p) - Z.of_nat (length r) - 1)%Z
    | None => found
    end.
Proof.
  induction p as [|a p IH]; intros i found; simpl rfind_from;
    [reflexivity|].
  rewrite IH. cbn [after_last].
  destruct (after_last c p) as [r|].
  - cbn [length]. lia.
  - destruct (Ascii.eqb a c); [cbn [length]; lia|reflexivity].
Qed.

Lemma rfind_after_last c p :
  rfind c p =
  match after_last c p with
  | Some r => (Z.of_nat (length p) - Z.of_nat (length r) - 1)%Z
  | None => (-1)%Z
  end.
Proof.
  unfold rfind. rewrite rfind_from_after_last.
  destruct (after_last c p); [lia|reflexivity].
Qed.

Lemma skip_leading_dots_spec s :
  forall pre post,
    skip_leading_dots (length s) (pre ++ s ++ post)
      (Z.of_nat (length pre)) (Z.of_nat (length pre + length s)) =
    if forallb is_dot s then (pre ++ s ++ post, [])
    else (firstn (length pre + length s) (pre ++ s ++ post),
          skipn (length pre + length s) (pre ++ s ++ post)).
Proof.
  induction s as [|a s IH]; intros pre post; [reflexivity|].
  cbn [length skip_leading_dots forallb].
  replace (Z.of_nat (length pre) <? Z.of_nat (length pre + S (length s)))%Z
    with true by (symmetry; apply Z.ltb_lt; lia).
  assert (Hs : slice (Z.of_nat (length pre)) (Z.of_nat (length pre) + 1)
                 (pre ++ (a :: s) ++ post) = [a]).
  { unfold slice. rewrite Nat2Z.id.
    replace (Z.to_nat (Z.of_nat (length pre) + 1) - length pre) with 1
      by lia.
    rewrite skipn_app, skipn_all, Nat.sub_diag. reflexivity. }
  rewrite Hs. fold (is_dot a). destruct (is_dot a); cbn [andb].
  - replace (pre ++ (a :: s) ++ post) with ((pre ++ [a]) ++ s ++ post)
      by (now rewrite <- app_assoc).
    replace (Z.of_nat (length pre) + 1)%Z
      with (Z.of_nat (length (pre ++ [a])))
      by (rewrite length_app; simpl; lia).
    replace (length pre + S (length s))
      with (length (pre ++ [a]) + length s)
      by (rewrite length_app; simpl; lia).
    apply IH.
  - now rewrite Nat2Z.id.
Qed.

Lemma final_component_split p :
  exists dir,
    p = dir ++ final_component p /\
    after_last slash (final_component p) = None /\
    rfind slash p = (Z.of_nat (length dir) - 1)%Z.
Proof.
  unfold final_component. rewrite rfind_after_last.
  destruct (after_last slash p) as [r|] eqn:E.
  - destruct (after_last_split _ _ _ E) as [pre [-> Hr]].
    exists (pre ++ [slash]). rewrite <- app_assoc. repeat split.
    + exact Hr.
    + rewrite !length_app. simpl. lia.
  - exists []. repeat split. exact E.
Qed.

Lemma strip_dots_no_dot p :
  after_last dot p = None -> after_last dot (strip_dots p) = None.
Proof.
  induction p as [|a p IH]; intros H; [reflexivity|].
  cbn [strip_dots]. destruct (is_dot a); [|exact H].
  apply IH. now apply after_last_tail in H.
Qed.

Lemma strip_dots_stem stem e :
  after_last dot e = None ->
  after_last dot (strip_dots (stem ++ dot :: e)) =
  if forallb is_dot stem then None else Some e.
Proof.
  intros He. induction stem as [|a stem IH].
  - cbn [app strip_dots forallb]. change (is_dot dot) with true. cbv iota.
    now apply strip_dots_no_dot.
  - cbn [app strip_dots forallb]. destruct (is_dot a) eqn:Ea; cbn [andb].
    + exact IH.
    + change (a :: stem ++ dot :: e) with ((a :: stem) ++ dot :: e).
      rewrite after_last_app. cbn [after_last]. rewrite He.
      change (Ascii.eqb dot dot) with true. reflexivity.
Qed.

(** The extension [splitext] returns, read off the final component. *)
Lemma splitext_extension p :
  snd (splitext p) =
  match after_last dot (strip_dots (final_component p)) with
  | None => []
  | Some e => dot :: e
  end.
Proof.
  destruct (final_component_split p) as [dir [Hp [Hslash Hsep]]].
  unfold splitext. rewrite Hsep. rewrite rfind_after_last.
  remember (final_component p) as comp eqn:Hc. clear Hc.
  subst p. rewrite after_last_app.
  destruct (after_last dot comp) as [e|] eqn:E.
  - destruct (after_last_split _ _ _ E) as [stem [-> He]].
    rewrite (strip_dots_stem stem e He).
    rewrite !length_app. cbn [length].
    replace (Z.of_nat (length dir + (length stem + S (length e))) -
             Z.of_nat (length e) - 1)%Z
      with (Z.of_nat (length dir + length stem)) by lia.
    replace (Z.of_nat (length dir + length stem) >?
             Z.of_nat (length dir) - 1)%Z with true
      by (symmetry; apply Z.gtb_lt; lia).
    replace (Z.of_nat (length dir) - 1 + 1)%Z
      with (Z.of_nat (length dir)) by lia.
    replace (Z.to_nat (Z.of_nat (length dir + length stem) -
                       Z.of_nat (length dir)))
      with (length stem) by lia.
    rewrite (skip_leading_dots_spec stem dir (dot :: e)).
    destruct (forallb is_dot stem); [reflexivity|].
    cbn [snd]. rewrite app_assoc.
    rewrite <- length_app.
    rewrite skipn_app, skipn_all, Nat.sub_diag. reflexivity.
  - rewrite (strip_dots_no_dot comp E).
    destruct (after_last dot dir) as [r|] eqn:Ed; simpl option_map; cbv iota.
    + destruct (after_last_split _ _ _ Ed) as [pre [-> _]].
      rewrite !length_app. cbn [length].
      replace (_ >? _)%Z with false; [reflexivity|].
      symmetry. rewrite Z.gtb_ltb. apply Z.ltb_ge. lia.
    + replace (_ >? _)%Z with false; [reflexivity|].
      symmetry. rewrite Z.gtb_ltb. apply Z.ltb_ge. lia.
Qed.

Lemma extension_token_effective f :
  extension_token f = effective_extension f.
Proof.
  unfold extension_token, effective_extension.
  rewrite splitext_extension.
  destruct (after_last dot (strip_dots _)) as [[|a e]|]; reflexivity.
Qed.

Lemma blob_paths_entries items entries :
  Forall2 describes items entries ->
  blob_paths items = Ok (map (fun e => JStr (fst e)) (blobs entries)).
Proof.
  induction 1 as [|item e items entries [Hp Ht] _ IH]; [reflexivity|].
  cbn [blob_paths]. rewrite Ht. cbn [rbind is_blob]. unfold blobs.
  cbn [filter]. fold (blobs entries).
  destruct (String.eqb (snd e) "blob").
  - rewrite Hp, IH. reflexivity.
  - exact IH.
Qed.

Lemma rmap_extension_of paths :
  rmap extension_of (map JStr paths) = Ok (map extension_token paths).
Proof.
  induction paths as [|p paths IH]; [reflexivity|].
  cbn [map rmap extension_of rbind]. now rewrite IH.
Qed.

(** C4, amended.  The token is the lower-cased substring after the last
    dot of the final component of the path once the dots that lead the
    component are set aside, and ["no_extension"] when no dot is left or
    nothing follows the last one; "src/main.rs" gives "rs", "Makefile"
    gives "no_extension"; entries whose type is not "blob" are left out
    of the count. *)
Theorem extension_tokens :
  (forall f, extension_token f = effective_extension f) /\
  extension_token "src/main.rs" = "rs"%string /\
  extension_token "Makefile" = "no_extension"%string /\
  (forall item rest t,
     getitem item "type" = Ok t -> is_blob t = false ->
     blob_paths (item :: rest) = blob_paths rest) /\
  (forall api data items entries,
     status_code (tree_endpoint api) = 200%Z ->
     body (tree_endpoint api) = Some data ->
     get_default data "tree" (JArr []) = Ok (JArr items) ->
     Forall2 describes items entries ->
     run (get_file_types api) =
     Returns (Counter (map (fun e => effective_extension (fst e))
                         (blobs entries)))).
Proof.
  split; [exact extension_token_effective|].
  split; [reflexivity|]. split; [reflexivity|]. split.
  - intros item rest t Ht Hb. cbn [blob_paths]. rewrite Ht. cbn [rbind].
    now rewrite Hb.
  - intros api data items entries Hs Hb Ht He.
    unfold run, get_file_types, bind, emit, response_json, lift, ret.
    rewrite Hs, Hb. cbn [Z.eqb Pos.eqb negb]. rewrite Ht. cbn [iterate].
    rewrite (blob_paths_entries _ _ He).
    rewrite <- (map_map fst JStr), rmap_extension_of.
    cbn [fst]. do 2 f_equal. rewrite map_map.
    apply map_ext. intros e. apply extension_token_effective.
Qed.

(** C4 as worded fails on a dotfile: the code answers "no_extension"
    where the wording asks for "gitignore". *)
Lemma documented_extension_differs :
  extension_token ".gitignore" <> documented_extension ".gitignore".
Proof. vm_compute. discriminate. Qed.
End Extensions.

(* ================================================================== *)
(** * Properties of the stable sort                                   *)
(* ================================================================== *)

Section SortFacts.
Import StatsVisualizer.
Context {A : Type}.
Variable before : A -> A -> bool.

Lemma insert_perm x l : Permutation (insert before x l) (x :: l).
Proof.
  induction l as [|y l IH]; simpl; [apply Permutation_refl|].
  destruct (before y x); [|apply Permutation_refl].
  eapply Permutation_trans; [apply perm_skip, IH|apply perm_swap].
Qed.

Lemma sort_perm l : Permutation (sort before l) l.
Proof.
  induction l as [|x l IH]; simpl; [constructor|].
  eapply Permutation_trans; [apply insert_perm|now apply perm_skip].
Qed.

(** Elements that satisfy [p] are never strictly ordered among
    themselves: sorting keeps them in the order of the input. *)
Lemma insert_filter (p : A -> bool) x l :
  (forall a b, p a = true -> p b = true -> before b a = false) ->
  filter p (insert before x l) = filter p (x :: l).
Proof.
  intros Hp. induction l as [|y l IH]; [reflexivity|].
  cbn [insert]. destruct (before y x) eqn:E; [|reflexivity].
  cbn [filter] in *. destruct (p y) eqn:Py.
  - destruct (p x) eqn:Px.
    + rewrite (Hp x y Px Py) in E. discriminate.
    + now rewrite IH.
  - exact IH.
Qed.

Lemma sort_filter (p : A -> bool) l :
  (forall a b, p a = true -> p b = true -> before b a = false) ->
  filter p (sort before l) = filter p l.
Proof.
  intros Hp. induction l as [|x l IH]; [reflexivity|].
  cbn [sort fold_right]. fold (sort before l).
  rewrite (insert_filter p x _ Hp). cbn [filter]. now rewrite IH.
Qed.

Hypothesis asym : forall a b, before a b = true -> before b a = false.

Lemma insert_sorted_gen x l :
  Sorted (fun a b => before b a = false) l ->
  Sorted (fun a b => before b a = false) (insert before x l).
Proof.
  induction 1 as [|y l Hs IH Hd]; cbn [insert].
  - repeat constructor.
  - destruct (before y x) eqn:E.
    + constructor; [exact IH|].
      destruct Hd as [|z l Hz]; cbn [insert].
      * constructor. now apply asym.
      * destruct (before z x); constructor; [exact Hz|now apply asym].
    + constructor; [now constructor|]. now constructor.
Qed.

Lemma sort_sorted_gen l :
  Sorted (fun a b => before b a = false) (sort before l).
Proof.
  induction l as [|x l IH]; simpl; [constructor|now apply insert_sorted_gen].
Qed.
End SortFacts.

(* ================================================================== *)
(** * Properties of the chart derivations                             *)
(* ================================================================== *)

Section Ranking.
Import Py StatsVisualizer.

Local Abbreviation csort := (sort by_contributions_desc).
Local Abbreviation cinsert := (insert by_contributions_desc).

Lemma insert_permutation x l : Permutation (cinsert x l) (x :: l).
Proof.
  induction l as [|y l IH]; simpl; [apply Permutation_refl|].
  destruct (by_contributions_desc y x); [|apply Permutation_refl].
  eapply Permutation_trans; [apply perm_skip, IH|apply perm_swap].
Qed.

Lemma sort_permutation l : Permutation (csort l) l.
Proof.
  induction l as [|x l IH]; simpl; [constructor|].
  eapply Permutation_trans; [apply insert_permutation|].
  now apply perm_skip.
Qed.

Lemma insert_sorted x l :
  Sorted ge_contributions l -> Sorted ge_contributions (cinsert x l).
Proof.
  induction 1 as [|y l Hs IH Hd]; simpl.
  - repeat constructor.
  - unfold by_contributions_desc at 1.
    destruct (contributions y >? contributions x)%Z eqn:E.
    + constructor; [exact IH|].
      destruct Hd as [|z l Hz]; simpl.
      * constructor. unfold ge_contributions.
        apply Z.gtb_lt in E. lia.
      * unfold by_contributions_desc.
        destruct (contributions z >? contributions x)%Z;
          constructor; [exact Hz|].
        unfold ge_contributions. apply Z.gtb_lt in E. lia.
    + constructor; [now constructor|]. constructor.
      unfold ge_contributions.
      rewrite Z.gtb_ltb in E. apply Z.ltb_ge in E. exact E.
Qed.

Lemma sort_sorted l : Sorted ge_contributions (csort l).
Proof.
  induction l as [|x l IH]; simpl; [constructor|now apply insert_sorted].
Qed.

Lemma sort_of_sorted l : Sorted ge_contributions l -> csort l = l.
Proof.
  induction 1 as [|x l Hs IH Hd]; simpl; [reflexivity|].
  rewrite IH. destruct Hd as [|y l Hy]; simpl; [reflexivity|].
  unfold by_contributions_desc.
  replace (contributions y >? contributions x)%Z with false;
    [reflexivity|].
  symmetry. rewrite Z.gtb_ltb. apply Z.ltb_ge. exact Hy.
Qed.

Lemma sort_idempotent l : csort (csort l) = csort l.
Proof. apply sort_of_sorted, sort_sorted. Qed.

(** Two descending lists of numbers with the same elements are equal. *)
Lemma descending_unique (l l' : list Z) :
  Sorted Z.ge l -> Sorted Z.ge l' -> Permutation l l' -> l = l'.
Proof.
  intros Hs Hs' HP.
  apply Sorted_StronglySorted in Hs; [|intros a b c; lia].
  apply Sorted_StronglySorted in Hs'; [|intros a b c; lia].
  revert l' Hs' HP.
  induction Hs as [|x l Hs IH Hx]; intros l' Hs' HP.
  - now apply Permutation_nil in HP.
  - destruct Hs' as [|y l' Hs' Hy].
    + apply Permutation_sym, Permutation_nil in HP. discriminate.
    + assert (x = y).
      { assert (Hin : In x (y :: l'))
          by (eapply Permutation_in; [exact HP|now left]).
        assert (Hin' : In y (x :: l))
          by (eapply Permutation_in;
              [apply Permutation_sym; exact HP|now left]).
        rewrite Forall_forall in Hx, Hy.
        destruct Hin as [->|Hin]; [reflexivity|].
        destruct Hin' as [->|Hin']; [reflexivity|].
        specialize (Hx y Hin'). specialize (Hy x Hin). lia. }
      subst y. f_equal. apply IH; [exact Hs'|].
      now apply Permutation_cons_inv in HP.
Qed.

Lemma sorted_contributions l :
  Sorted ge_contributions l -> Sorted Z.ge (map contributions l).
Proof.
  induction 1 as [|x l Hs IH Hd]; simpl; constructor; [exact IH|].
  destruct Hd as [|y l Hy]; simpl; constructor.
  unfold ge_contributions in Hy. lia.
Qed.

Lemma sorted_counts_agree l l' :
  Permutation l l' ->
  map contributions (csort l') = map contributions (csort l).
Proof.
  intros HP. apply descending_unique.
  - apply sorted_contributions, sort_sorted.
  - apply sorted_contributions, sort_sorted.
  - apply Permutation_map.
    eapply Permutation_trans; [apply sort_permutation|].
    eapply Permutation_trans; [apply Permutation_sym, HP|].
    apply Permutation_sym, sort_permutation.
Qed.

(** With pairwise distinct counts the records follow their counts. *)
Lemma same_counts_same_records (l l' : list contributor) :
  NoDup (map contributions l) -> Permutation l l' ->
  map contributions l' = map contributions l -> l' = l.
Proof.
  revert l'. induction l as [|x l IH]; intros l' Hnd HP Hm.
  - now destruct l'.
  - destruct l' as [|y l']; [discriminate|].
    simpl in Hm. injection Hm as Hxy Hm.
    inversion Hnd as [|? ? Hx Hnd']; subst.
    assert (y = x).
    { assert (Hin : In y (x :: l))
        by (eapply Permutation_in;
            [apply Permutation_sym; exact HP|now left]).
      destruct Hin as [->|Hin]; [reflexivity|].
      exfalso. apply Hx. rewrite <- Hxy. now apply in_map. }
    subst y. f_equal. apply IH; [exact Hnd'| |exact Hm].
    now apply Permutation_cons_inv in HP.
Qed.

Lemma sort_of_permutation l l' :
  Permutation l l' -> NoDup (map contributions l) -> csort l' = csort l.
Proof.
  intros HP Hnd. apply same_counts_same_records.
  - eapply Permutation_NoDup; [|exact Hnd].
    apply Permutation_map, Permutation_sym, sort_permutation.
  - eapply Permutation_trans; [apply sort_permutation|].
    eapply Permutation_trans; [exact HP|].
    apply Permutation_sym, sort_permutation.
  - now apply sorted_counts_agree.
Qed.

Lemma same_counts_same_ties (l l' : list contributor) :
  map contributions l' = map contributions l ->
  (forall count,
     filter (fun a => Z.eqb (contributions a) count) l' =
     filter (fun a => Z.eqb (contributions a) count) l) ->
  l' = l.
Proof.
  revert l'. induction l as [|x l IH]; intros l' Hm Hf.
  - now destruct l'.
  - destruct l' as [|y l']; [discriminate|].
    cbn [map] in Hm. injection Hm as Hxy Hm.
    pose proof (Hf (contributions x)) as Hx. cbn [filter] in Hx.
    rewrite Hxy, Z.eqb_refl in Hx. injection Hx as Hyx _. subst y.
    f_equal. apply IH; [exact Hm|]. intros count.
    specialize (Hf count). cbn [filter] in Hf.
    destruct (Z.eqb (contributions x) count); [now injection Hf|exact Hf].
Qed.

Lemma ties_keep_order l count :
  filter (fun a => Z.eqb (contributions a) count) (csort l) =
  filter (fun a => Z.eqb (contributions a) count) l.
Proof.
  apply sort_filter. intros a b Ha Hb. apply Z.eqb_eq in Ha, Hb.
  unfold by_contributions_desc. rewrite Z.gtb_ltb. apply Z.ltb_ge. lia.
Qed.

Lemma sort_of_permutation_same_ties l l' :
  Permutation l l' ->
  (forall count,
     filter (fun a => Z.eqb (contributions a) count) l' =
     filter (fun a => Z.eqb (contributions a) count) l) ->
  csort l' = csort l.
Proof.
  intros HP Hf. apply same_counts_same_ties.
  - now apply sorted_counts_agree.
  - intros count. now rewrite !ties_keep_order.
Qed.

(** C6, amended.  The chart shows the first ten contributors of the
    list sorted by descending count with a stable sort: the sorted list
    holds the same contributors, in descending order of count, those with
    equal counts in the order of the input.  Sorting a descending list
    gives it back, and sorting twice is sorting once.  Sorting a
    permutation of a list and truncating gives the same counts, and the
    same top ten whenever the permutation leaves contributors with equal
    counts in the same relative order, in particular when the counts are
    pairwise distinct. *)
Theorem contributor_ranking :
  (forall self,
     fst (generate_contributors_chart self) =
     Ok {| labels := map login (top_contributors (contributors self));
           heights :=
             map contributions (top_contributors (contributors self)) |}) /\
  (forall l, Sorted ge_contributions l ->
     sort by_contributions_desc l = l) /\
  (forall l, sort by_contributions_desc (sort by_contributions_desc l) =
             sort by_contributions_desc l) /\
  (forall l l', Permutation l l' -> NoDup (map contributions l) ->
     top_contributors l' = top_contributors l) /\
  (forall l l', Permutation l l' ->
     map contributions (top_contributors l') =
     map contributions (top_contributors l)) /\
  (forall l,
     Permutation (sort by_contributions_desc l) l /\
     Sorted ge_contributions (sort by_contributions_desc l)) /\
  (forall l count,
     filter (fun a => Z.eqb (contributions a) count)
       (sort by_contributions_desc l) =
     filter (fun a => Z.eqb (contributions a) count) l) /\
  (forall l l', Permutation l l' ->
     (forall count,
        filter (fun a => Z.eqb (contributions a) count) l' =
        filter (fun a => Z.eqb (contributions a) count) l) ->
     top_contributors l' = top_contributors l).
Proof.
  split; [reflexivity|].
  split; [exact sort_of_sorted|].
  split; [exact sort_idempotent|].
  split; [|split; [|split; [|split]]].
  - intros l l' HP Hnd. unfold top_contributors.
    now rewrite (sort_of_permutation l l' HP Hnd).
  - intros l l' HP. unfold top_contributors.
    rewrite <- !firstn_map. now rewrite (sorted_counts_agree l l' HP).
  - intros l. split; [apply sort_permutation|apply sort_sorted].
  - exact ties_keep_order.
  - intros l l' HP Hf. unfold top_contributors.
    now rewrite (sort_of_permutation_same_ties l l' HP Hf).
Qed.

(** C6 as worded fails when two contributors tie for the tenth place. *)
Lemma ranking_depends_on_order :
  ~ (forall l l' : list contributor,
       length l = 15 -> Permutation l l' ->
       top_contributors l' = top_contributors l).
Proof.
  intros H.
  specialize (H Fixtures.fifteen Fixtures.fifteen_shuffled eq_refl).
  assert (HP : Permutation Fixtures.fifteen Fixtures.fifteen_shuffled).
  { unfold Fixtures.fifteen, Fixtures.fifteen_shuffled.
    do 9 apply perm_skip. apply perm_swap. }
  specialize (H HP). vm_compute in H. discriminate.
Qed.

(** The three derivations that sort a copy leave the document alone. *)
Lemma document_unchanged self :
  snd (generate_commit_frequency_chart self) = self /\
  snd (generate_file_types_chart self) = self /\
  snd (generate_authors_activity_chart self) = self.
Proof.
  split; [reflexivity|]. split; [|reflexivity].
  unfold generate_file_types_chart.
  destruct (threshold_of _); [|reflexivity].
  now destruct (group_types _ _ _ _).
Qed.

(** C5.  [generate_contributors_chart] sorts the list held by the
    document: after the call the contributors of the document are in a
    different order. *)
Theorem contributors_chart_reorders_document :
  contributors Fixtures.unsorted_document =
    [Fixtures.person "hubot" 5; Fixtures.person "octocat" 32] /\
  contributors (snd (generate_contributors_chart Fixtures.unsorted_document))
    = [Fixtures.person "octocat" 32; Fixtures.person "hubot" 5] /\
  snd (generate_contributors_chart Fixtures.unsorted_document)
    <> Fixtures.unsorted_document.
Proof.
  split; [reflexivity|]. split; [reflexivity|]. discriminate.
Qed.
End Ranking.

(* ================================================================== *)
(** * Properties of the chart derivations: the 2% threshold           *)
(* ================================================================== *)

Section Threshold.
Import Py StatsVisualizer.
Local Open Scope Z_scope.

Lemma shr_1_spec m r s :
  0 <= m ->
  shr_1 {| shr_m := m; shr_r := r; shr_s := s |} =
  {| shr_m := m / 2; shr_r := Z.odd m; shr_s := r || s |}.
Proof.
  intros Hm. destruct m as [|p|p]; [reflexivity| |lia].
  destruct p as [p|p|]; cbn [shr_1].
  - f_equal. rewrite Pos2Z.inj_xI.
    rewrite Z.add_comm, Z.mul_comm, Z.div_add by lia. reflexivity.
  - f_equal. rewrite Pos2Z.inj_xO, Z.mul_comm, Z.div_mul by lia. reflexivity.
  - reflexivity.
Qed.

Lemma located_start M : located 0 M {| shr_m := M; shr_r := false; shr_s := false |}.
Proof.
  split; simpl.
  - now rewrite Z.div_1_r.
  - apply Z.mod_1_r.
Qed.

Lemma located_step k M mrs :
  0 <= M -> located k M mrs -> located (S k) M (shr_1 mrs).
Proof.
  intros HM [Hm Hl]. destruct mrs as [m r s]. cbn [shr_m shr_r shr_s] in *.
  assert (Hp : 0 < 2 ^ Z.of_nat k) by (apply Z.pow_pos_nonneg; lia).
  assert (Hm0 : 0 <= m) by (subst m; apply Z.div_pos; lia).
  rewrite shr_1_spec by exact Hm0.
  assert (E : 2 ^ Z.of_nat (S k) = 2 ^ Z.of_nat k * 2).
  { rewrite Nat2Z.inj_succ, Z.pow_succ_r by lia. lia. }
  split; cbn [shr_m shr_r shr_s].
  - rewrite E, <- Z.div_div by lia. now rewrite Hm.
  - cbv zeta in *. rewrite E.
    rewrite Z.rem_mul_r by lia. rewrite <- Hm.
    rewrite (Zmod_odd m).
    pose proof (Z.mod_pos_bound M (2 ^ Z.of_nat k) Hp) as Hb.
    destruct (Z.odd m), r, s; cbn [orb]; lia.
Qed.

Lemma located_iter k M :
  0 <= M ->
  located k M (Nat.iter k shr_1 {| shr_m := M; shr_r := false; shr_s := false |}).
Proof.
  intros HM. induction k as [|k IH].
  - apply located_start.
  - cbn [Nat.iter]. now apply located_step.
Qed.

Lemma iter_pos_nat {A} (f : A -> A) p x :
  iter_pos f p x = Nat.iter (Pos.to_nat p) f x.
Proof.
  revert x. induction p as [p IH|p IH|]; intros x; cbn [iter_pos].
  - rewrite !IH. rewrite Pos2Nat.inj_xI.
    replace (S (2 * Pos.to_nat p)) with (Pos.to_nat p + (Pos.to_nat p + 1))%nat by lia.
    rewrite !Nat.iter_add. reflexivity.
  - rewrite !IH. rewrite Pos2Nat.inj_xO.
    replace (2 * Pos.to_nat p)%nat with (Pos.to_nat p + Pos.to_nat p)%nat by lia.
    rewrite Nat.iter_add. reflexivity.
  - reflexivity.
Qed.

(** Rounding to nearest after [k] shifts stays within half a unit. *)
Lemma located_round k M mrs :
  0 <= M -> located k M mrs ->
  let m' := round_nearest_even (shr_m mrs) (loc_of_shr_record mrs) in
  2 * M - 2 ^ Z.of_nat k <= 2 * (2 ^ Z.of_nat k * m') <= 2 * M + 2 ^ Z.of_nat k.
Proof.
  intros HM [Hm Hl]. destruct mrs as [m r s]. cbn [shr_m shr_r shr_s] in *.
  assert (Hp : 0 < 2 ^ Z.of_nat k) by (apply Z.pow_pos_nonneg; lia).
  pose proof (Z.mod_pos_bound M (2 ^ Z.of_nat k) Hp) as Hb.
  pose proof (Z.div_mod M (2 ^ Z.of_nat k) ltac:(lia)) as Hd.
  rewrite <- Hm in Hd. cbv zeta in *.
  destruct r, s; cbn [loc_of_shr_record round_nearest_even].
  - nia.
  - destruct (Z.even m); nia.
  - nia.
  - nia.
Qed.

Lemma digits2_bounds p :
  2 ^ (Zpos (digits2_pos p) - 1) <= Zpos p < 2 ^ Zpos (digits2_pos p).
Proof.
  induction p as [p IH|p IH|]; cbn [digits2_pos].
  - rewrite Pos2Z.inj_succ, (Pos2Z.inj_xI p).
    replace (Z.succ (Zpos (digits2_pos p)) - 1)
      with (Z.succ (Zpos (digits2_pos p) - 1)) by lia.
    rewrite !Z.pow_succ_r by lia.
    revert IH. generalize (2 ^ (Zpos (digits2_pos p) - 1)).
    generalize (2 ^ Zpos (digits2_pos p)). intros; lia.
  - rewrite Pos2Z.inj_succ, (Pos2Z.inj_xO p).
    replace (Z.succ (Zpos (digits2_pos p)) - 1)
      with (Z.succ (Zpos (digits2_pos p) - 1)) by lia.
    rewrite !Z.pow_succ_r by lia.
    revert IH. generalize (2 ^ (Zpos (digits2_pos p) - 1)).
    generalize (2 ^ Zpos (digits2_pos p)). intros; lia.
  - simpl. lia.
Qed.

Lemma digits2_unique p k :
  2 ^ (k - 1) <= Zpos p < 2 ^ k -> Zpos (digits2_pos p) = k.
Proof.
  intros [Hl Hu]. pose proof (digits2_bounds p) as [Dl Du].
  assert (Hk : 0 < k).
  { destruct (Z.ltb_spec 0 k) as [H|H]; [exact H|].
    exfalso. assert (2 ^ k <= 1).
    { destruct (Z.eqb_spec k 0) as [->|Hn]; [simpl; lia|].
      rewrite Z.pow_neg_r by lia. lia. }
    lia. }
  destruct (Z.lt_trichotomy (Zpos (digits2_pos p)) k) as [H|[H|H]];
    [|exact H|].
  - exfalso. assert (2 ^ Zpos (digits2_pos p) <= 2 ^ (k - 1))
      by (apply Z.pow_le_mono_r; lia). lia.
  - exfalso. assert (2 ^ k <= 2 ^ (Zpos (digits2_pos p) - 1))
      by (apply Z.pow_le_mono_r; lia). lia.
Qed.

Lemma iter_xO_spec mx d : Zpos (Pos.iter xO mx d) = Zpos mx * 2 ^ Zpos d.
Proof.
  induction d as [|d IH] using Pos.peano_ind.
  - simpl. lia.
  - rewrite Pos.iter_succ, (Pos2Z.inj_xO (Pos.iter xO mx d)), IH, Pos2Z.inj_succ.
    rewrite Z.pow_succ_r by lia. lia.
Qed.

Lemma fexp_normal e : -1021 <= e -> fexp 53 1024 e = e - 53.
Proof. intros H. unfold fexp, emin. lia. Qed.

(** Rounding a mantissa of exactly 53 bits changes nothing. *)
Lemma binary_round_aux_exact m e :
  Zpos (digits2_pos m) = 53 -> -1074 <= e <= 971 ->
  binary_round_aux 53 1024 false (Zpos m) e loc_Exact = S754_finite false m e.
Proof.
  intros Hd He.
  assert (Hs : shr_fexp 53 1024 (Zpos m) e loc_Exact =
               ({| shr_m := Zpos m; shr_r := false; shr_s := false |}, e)).
  { unfold shr_fexp. cbn [Zdigits2 shr_record_of_loc]. rewrite Hd.
    rewrite fexp_normal by lia.
    replace (53 + e - 53 - e) with 0 by lia. reflexivity. }
  unfold binary_round_aux. rewrite Hs.
  cbn [shr_m loc_of_shr_record round_nearest_even]. rewrite Hs.
  cbn [shr_m]. replace (e <=? 1024 - 53) with true; [reflexivity|].
  symmetry. apply Z.leb_le. lia.
Qed.

(** The float of a positive integer below 2^53 is that integer. *)
Lemma binary_normalize_small t :
  Zpos t < 2 ^ 53 ->
  exists m e,
    binary_normalize 53 1024 (Zpos t) 0 false = S754_finite false m e /\
    Zpos (digits2_pos m) = 53 /\ -52 <= e <= 0 /\
    Zpos m = Zpos t * 2 ^ (- e).
Proof.
  intros Ht. cbn [binary_normalize]. unfold binary_round.
  pose proof (digits2_bounds t) as [Dl Du].
  set (dt := Zpos (digits2_pos t)) in *.
  assert (Hdt : 1 <= dt <= 53).
  { split; [unfold dt; lia|].
    destruct (Z.leb_spec dt 53) as [H|H]; [exact H|].
    exfalso. assert (2 ^ 53 <= 2 ^ (dt - 1))
      by (apply Z.pow_le_mono_r; lia). lia. }
  rewrite Z.add_0_r, fexp_normal by lia.
  unfold shl_align. rewrite Z.sub_0_r.
  destruct (dt - 53) as [|d|d] eqn:E; try lia.
  - exists t, 0. rewrite binary_round_aux_exact by (fold dt; lia).
    split; [reflexivity|]. split; [fold dt; lia|]. split; [lia|].
    simpl. lia.
  - assert (Hm : Zpos (Pos.iter xO t d) = Zpos t * 2 ^ Zpos d)
      by apply iter_xO_spec.
    assert (Hd : Zpos (digits2_pos (Pos.iter xO t d)) = 53).
    { apply digits2_unique. rewrite Hm.
      replace 53 with (dt + Zpos d) by lia.
      replace (dt + Zpos d - 1) with ((dt - 1) + Zpos d) by lia.
      rewrite !Z.pow_add_r by lia.
      assert (0 < 2 ^ Zpos d) by (apply Z.pow_pos_nonneg; lia). nia. }
    exists (Pos.iter xO t d), (Zneg d).
    rewrite binary_round_aux_exact by (try exact Hd; lia).
    split; [reflexivity|]. split; [exact Hd|]. split; [lia|].
    rewrite Hm. reflexivity.
Qed.

(** Rounding a mantissa of more than 53 bits: the mantissa kept is within
    half a unit of the exact quotient, and the comparison with an integer
    reads on it. *)
Lemma binary_round_aux_long M E :
  let dg := Zpos (digits2_pos M) in
  let n := dg - 53 in
  0 < n -> -1021 <= dg + E -> E + n < -1 ->
  exists m',
    2 * Zpos M - 2 ^ n <= 2 * (2 ^ n * m') <= 2 * Zpos M + 2 ^ n /\
    forall c,
      int_ge_float c (binary_round_aux 53 1024 false (Zpos M) E loc_Exact) =
      (m' <=? c * 2 ^ (- (E + n))).
Proof.
  intros dg n Hn Hd He.
  pose proof (digits2_bounds M) as [Dl Du]. fold dg in Dl, Du.
  destruct n as [|np|np] eqn:En; try lia.
  set (k := Pos.to_nat np).
  assert (Hk : Z.of_nat k = Zpos np) by (unfold k; lia).
  set (mrs := Nat.iter k shr_1
                {| shr_m := Zpos M; shr_r := false; shr_s := false |}).
  assert (Hs : shr_fexp 53 1024 (Zpos M) E loc_Exact = (mrs, E + Zpos np)).
  { unfold shr_fexp. cbn [Zdigits2 shr_record_of_loc]. fold dg.
    rewrite fexp_normal by lia.
    replace (dg + E - 53 - E) with (Zpos np) by lia.
    cbn [shr]. now rewrite iter_pos_nat. }
  assert (Hloc : located k (Zpos M) mrs) by (apply located_iter; lia).
  pose proof (located_round k (Zpos M) mrs ltac:(lia) Hloc) as Hb.
  cbv zeta in Hb. rewrite Hk in Hb.
  set (m' := round_nearest_even (shr_m mrs) (loc_of_shr_record mrs)) in *.
  exists m'. split; [exact Hb|].
  assert (Hp : 0 < 2 ^ Zpos np) by (apply Z.pow_pos_nonneg; lia).
  assert (Hdg : 2 ^ dg = 2 ^ Zpos np * 2 ^ 53).
  { replace dg with (Zpos np + 53) by lia. apply Z.pow_add_r; lia. }
  assert (Hdg1 : 2 ^ (dg - 1) = 2 ^ Zpos np * 2 ^ 52).
  { replace (dg - 1) with (Zpos np + 52) by lia. apply Z.pow_add_r; lia. }
  assert (Hm' : 2 ^ 52 <= m' <= 2 ^ 53).
  { rewrite Hdg in Du. rewrite Hdg1 in Dl.
    change (2 ^ 52) with 4503599627370496 in *.
    change (2 ^ 53) with 9007199254740992 in *. nia. }
  intros c. unfold binary_round_aux. rewrite Hs. fold m'.
  destruct m' as [|mp|mp] eqn:Em; try (exfalso; change (2 ^ 52) with 4503599627370496 in Hm'; lia).
  destruct (Z.eqb_spec (Zpos mp) (2 ^ 53)) as [Heq|Hne].
  - (* the mantissa reached 2^53: one more shift *)
    assert (Hd54 : Zpos (digits2_pos mp) = 54).
    { apply digits2_unique. rewrite Heq. simpl. lia. }
    unfold shr_fexp. cbn [Zdigits2 shr_record_of_loc]. rewrite Hd54.
    rewrite fexp_normal by lia.
    replace (54 + (E + Zpos np) - 53 - (E + Zpos np)) with 1 by lia.
    cbn [shr iter_pos]. rewrite shr_1_spec by lia. cbn [shr_m].
    rewrite Heq. change (2 ^ 53 / 2) with (Zpos 4503599627370496).
    cbv iota.
    replace (E + Zpos np + 1 <=? 1024 - 53) with true
      by (symmetry; apply Z.leb_le; lia).
    cbn [int_ge_float].
    replace (0 <=? E + Zpos np + 1) with false
      by (symmetry; apply Z.leb_gt; lia).
    replace (- (E + Zpos np)) with (Z.succ (- (E + Zpos np + 1))) by lia.
    rewrite Z.pow_succ_r by lia.
    generalize (2 ^ (- (E + Zpos np + 1))). intros z.
    change (2 ^ 53) with 9007199254740992.
    destruct (Z.leb_spec 4503599627370496 (c * z));
      destruct (Z.leb_spec 9007199254740992 (c * (2 * z))); lia.
  - assert (Hd53 : Zpos (digits2_pos mp) = 53).
    { apply digits2_unique. lia. }
    unfold shr_fexp. cbn [Zdigits2 shr_record_of_loc]. rewrite Hd53.
    rewrite fexp_normal by lia.
    replace (53 + (E + Zpos np) - 53 - (E + Zpos np)) with 0 by lia.
    cbn [shr shr_m].
    replace (E + Zpos np <=? 1024 - 53) with true
      by (symmetry; apply Z.leb_le; lia).
    cbn [int_ge_float].
    replace (0 <=? E + Zpos np) with false
      by (symmetry; apply Z.leb_gt; lia).
    reflexivity.
Qed.

Lemma pow2_lt_exponent a b : 0 <= a -> 0 <= b -> 2 ^ a < 2 ^ b -> a < b.
Proof. intros Ha Hb H. apply (Z.pow_lt_mono_r_iff 2); lia. Qed.

(** The comparison of the loop, on a mantissa [P] of 53 bits scaled by
    [A], reads as a comparison of integers. *)
Lemma half_unit_decides P Q N W V c T A :
  0 < A -> P = T * A -> Q = c * A ->
  4503599627370496 <= P < 9007199254740992 ->
  4503599627370496 <= N <= 9007199254740992 ->
  2 * (P * 5764607523034235) - N <= 2 * W <=
    2 * (P * 5764607523034235) + N ->
  V = 288230376151711744 * Q ->
  forall m' Y, W = N * m' -> V = N * Y -> (m' <=? Y) = (T <=? 50 * c).
Proof.
  intros HA HP HQ HPb HN HW HV m' Y Wm VY.
  destruct (Z.leb_spec T (50 * c)) as [H|H].
  - apply Z.leb_le.
    destruct (Z.le_gt_cases m' Y) as [Hle|Hgt]; [exact Hle|exfalso].
    assert (N * (Y + 1) <= N * m') by (apply Z.mul_le_mono_nonneg_l; lia).
    assert (P <= 50 * Q) by (subst P Q; nia).
    lia.
  - apply Z.leb_gt.
    destruct (Z.le_gt_cases m' Y) as [Hle|Hgt]; [exfalso|lia].
    assert (N * m' <= N * Y) by (apply Z.mul_le_mono_nonneg_l; lia).
    assert (50 * Q + 1 <= P) by (subst P Q; nia).
    lia.
Qed.

(** Below 2^53 files the float threshold [total_files * 0.02] separates
    the counts exactly as 2% of the total does. *)
Lemma threshold_is_two_percent total_files :
  0 <= total_files < 2 ^ 53 ->
  exists threshold,
    threshold_of total_files = Ok threshold /\
    forall count,
      int_ge_float count threshold = two_percent_or_more total_files count.
Proof.
  intros [H0 Hu]. unfold two_percent_or_more.
  destruct total_files as [|t|t]; try lia.
  { exists (S754_zero false). split; [reflexivity|]. intros count.
    cbn [int_ge_float].
    destruct (Z.leb_spec 0 count); destruct (Z.leb_spec (2 * 0) (100 * count));
      lia. }
  destruct (binary_normalize_small t Hu) as [m [e [Hf [Hd [He Hm]]]]].
  unfold threshold_of, float_of_int.
  change prec with 53. change emax with 1024. rewrite Hf. cbn [Py.rbind].
  unfold two_percent. cbn [SFmul xorb].
  set (M := (m * 5764607523034235)%positive).
  pose proof (digits2_bounds m) as [ml mu]. rewrite Hd in ml, mu.
  change (2 ^ (53 - 1)) with 4503599627370496 in ml.
  change (2 ^ 53) with 9007199254740992 in mu.
  assert (HM : Zpos M = Zpos m * 5764607523034235) by reflexivity.
  pose proof (digits2_bounds M) as [Ml Mu].
  set (dg := Zpos (digits2_pos M)) in *.
  assert (Hdg : 105 <= dg <= 106).
  { assert (2 ^ 104 < 2 ^ dg).
    { change (2 ^ 104) with 20282409603651670423947251286016. lia. }
    assert (2 ^ (dg - 1) < 2 ^ 106).
    { change (2 ^ 106) with 81129638414606681695789005144064. nia. }
    assert (0 < dg) by (unfold dg; lia).
    assert (104 < dg) by (apply pow2_lt_exponent; lia).
    assert (dg - 1 < 106) by (apply pow2_lt_exponent; lia).
    lia. }
  destruct (binary_round_aux_long M (e + -58)) as [m' [Hb Hc]];
    fold dg; try lia.
  eexists. split; [reflexivity|]. intros count. rewrite Hc. fold dg.
  set (n := dg - 53) in *.
  assert (HA : 0 < 2 ^ (- e)) by (apply Z.pow_pos_nonneg; lia).
  assert (HN : 4503599627370496 <= 2 ^ n <= 9007199254740992).
  { assert (n = 52 \/ n = 53) as [->| ->] by lia; simpl; lia. }
  assert (HS : 2 ^ n * 2 ^ (- (e + -58 + n)) =
               288230376151711744 * 2 ^ (- e)).
  { rewrite <- Z.pow_add_r by lia.
    replace (n + - (e + -58 + n)) with (58 + - e) by lia.
    rewrite Z.pow_add_r by lia. reflexivity. }
  replace (2 * Zpos t <=? 100 * count) with (Zpos t <=? 50 * count)
    by (destruct (Z.leb_spec (Zpos t) (50 * count));
        destruct (Z.leb_spec (2 * Zpos t) (100 * count)); lia).
  apply (half_unit_decides (Zpos m) (count * 2 ^ (- e)) (2 ^ n)
           (2 ^ n * m') (288230376151711744 * (count * 2 ^ (- e)))
           count (Zpos t) (2 ^ (- e))).
  - exact HA.
  - exact Hm.
  - reflexivity.
  - lia.
  - exact HN.
  - rewrite <- HM. exact Hb.
  - reflexivity.
  - reflexivity.
  - rewrite (Z.mul_comm count (2 ^ (- (e + -58 + n)))).
    rewrite (Z.mul_assoc (2 ^ n)), HS. ring.
Qed.
End Threshold.

Section Grouping.
Import Py StatsVisualizer.

Lemma dict_set_fresh (k : string) (v : Z) d :
  ~ In k (keys d) -> dict_set String.eqb k v d = d ++ [(k, v)].
Proof.
  induction d as [|[k' v'] d IH]; intros H; [reflexivity|].
  cbn [dict_set app]. destruct (String.eqb k k') eqn:E.
  - apply String.eqb_eq in E. subst. exfalso. apply H. now left.
  - rewrite IH; [reflexivity|]. intros Hin. apply H. now right.
Qed.

Lemma keys_app {V} (d d' : list (string * V)) :
  keys (d ++ d') = keys d ++ keys d'.
Proof. apply map_app. Qed.

Lemma kept_keys threshold items k :
  In k (keys (kept threshold items)) -> In k (keys items).
Proof.
  unfold keys, kept. rewrite !in_map_iff.
  intros [kv [Hk Hin]]. exists kv. split; [exact Hk|].
  now apply filter_In in Hin.
Qed.

Lemma group_types_spec threshold items :
  forall grouped other,
    NoDup (keys items) ->
    (forall k, In k (keys items) -> ~ In k (keys grouped)) ->
    group_types threshold items grouped other =
    (grouped ++ kept threshold items,
     (other + zsum (values (merged threshold items)))%Z).
Proof.
  induction items as [|[k v] items IH]; intros grouped other Hnd Hfresh.
  - simpl. now rewrite app_nil_r, Z.add_0_r.
  - inversion Hnd as [|? ? Hk Hnd']; subst.
    cbn [group_types]. unfold kept, merged. cbn [filter snd].
    fold (kept threshold items). fold (merged threshold items).
    destruct (int_ge_float v threshold); cbn [negb].
    + rewrite dict_set_fresh by (apply Hfresh; now left).
      rewrite IH; [now rewrite <- app_assoc|exact Hnd'|].
      intros k' Hin. rewrite keys_app. intros Hin'.
      apply in_app_or in Hin'. destruct Hin' as [Hin'|[<-|[]]].
      * apply (Hfresh k'); [now right|exact Hin'].
      * now apply Hk.
    + rewrite IH; [|exact Hnd'|].
      * cbn [values map zsum fold_right snd]. f_equal.
        unfold zsum, values. lia.
      * intros k' Hin. apply Hfresh. now right.
Qed.

(** The grouping, for whatever threshold the float product gives. *)
Lemma file_types_grouping_float self threshold :
  NoDup (keys (file_types self)) ->
  ~ In "Other"%string (keys (file_types self)) ->
  threshold_of (zsum (values (file_types self))) = Ok threshold ->
  let own := kept threshold (file_types self) in
  let other_count := zsum (values (merged threshold (file_types self))) in
  exists chart,
    generate_file_types_chart self = (Ok chart, self) /\
    labels chart =
      keys own ++ (if (other_count >? 0)%Z then ["Other"%string] else []) /\
    heights chart =
      values own ++ (if (other_count >? 0)%Z then [other_count] else []) /\
    (In "Other"%string (labels chart) <-> (other_count > 0)%Z).
Proof.
  intros Hnd Hother Ht own other_count.
  unfold generate_file_types_chart. rewrite Ht.
  rewrite group_types_spec; [|exact Hnd|intros k _ []].
  cbn [app Z.add]. fold own. fold other_count.
  assert (Hown : ~ In "Other"%string (keys own)).
  { intros Hin. apply Hother. now apply kept_keys in Hin. }
  destruct (other_count >? 0)%Z eqn:E.
  - rewrite dict_set_fresh by exact Hown.
    eexists. split; [reflexivity|]. cbn [labels heights].
    unfold keys, values. rewrite !map_app. cbn [map fst snd].
    repeat split.
    + intros _. apply Z.gtb_lt in E. lia.
    + intros _. apply in_or_app. right. now left.
  - eexists. split; [reflexivity|]. cbn [labels heights].
    rewrite !app_nil_r. repeat split.
    + intros Hin. exfalso. now apply Hown.
    + intros Hpos. rewrite Z.gtb_ltb in E. apply Z.ltb_ge in E. lia.
Qed.

(** C3.  With 2% of the sum of the counts as threshold, the categories
    whose count is at least the threshold keep their slots in the order of
    the document, the counts strictly below the threshold add up under
    "Other", put last, and "Other" is shown exactly when that sum is
    positive.  In {a:60, b:30, c:5, d:5} every category keeps its slot; in
    {a:60, b:39, c:1} the category c is merged. *)
Theorem file_types_grouping :
  (forall self,
     NoDup (keys (file_types self)) ->
     ~ In "Other"%string (keys (file_types self)) ->
     let total := zsum (values (file_types self)) in
     (0 <= total < 2 ^ 53)%Z ->
     let own := own_slot total (file_types self) in
     let other_count := zsum (values (below total (file_types self))) in
     exists chart,
       generate_file_types_chart self = (Ok chart, self) /\
       labels chart =
         keys own ++ (if (other_count >? 0)%Z then ["Other"%string] else []) /\
       heights chart =
         values own ++ (if (other_count >? 0)%Z then [other_count] else []) /\
       (In "Other"%string (labels chart) <-> (other_count > 0)%Z)) /\
  fst (generate_file_types_chart
         (Fixtures.document
            [("a", 60); ("b", 30); ("c", 5); ("d", 5)]%string%Z [])) =
    Ok {| labels := ["a"; "b"; "c"; "d"]%string;
          heights := [60; 30; 5; 5]%Z |} /\
  fst (generate_file_types_chart
         (Fixtures.document [("a", 60); ("b", 39); ("c", 1)]%string%Z [])) =
    Ok {| labels := ["a"; "b"; "Other"]%string;
          heights := [60; 39; 1]%Z |}.
Proof.
  split; [|split; reflexivity].
  intros self Hnd Hother total Htotal own other_count.
  destruct (threshold_is_two_percent total Htotal) as [threshold [Ht Hge]].
  assert (Hk : kept threshold (file_types self) = own).
  { unfold kept, own, own_slot. apply filter_ext. intros kv. apply Hge. }
  assert (Hm : merged threshold (file_types self) =
               below total (file_types self)).
  { unfold merged, below. apply filter_ext. intros kv. now rewrite Hge. }
  pose proof (file_types_grouping_float self threshold Hnd Hother Ht) as H.
  cbv zeta in H. rewrite Hk, Hm in H. exact H.
Qed.
End Grouping.

(* ================================================================== *)
(** * The statements at work on the sample data                       *)
(* ================================================================== *)

Section Samples.
Import Py RepoStats Fixtures.

Lemma report_counts_agree_sample :
  exists r,
    run (generate_report analyzer 3 three_pages) = Returns r /\
    sum (values (commit_frequency r)) = total_commits r /\
    total_commits r = sum (values (authors r)).
Proof.
  eexists. split; [vm_compute; reflexivity|].
  apply (report_counts_agree analyzer 3 three_pages).
  vm_compute. reflexivity.
Defined.

Lemma paginated_fetch_sample :
  run (get_commits 3 three_pages) =
    Returns (flat_map sample_pages (seq 1 3)) /\
  trace (get_commits 3 three_pages) = map Get_commits (seq 1 3) /\
  requested_pages (trace (get_commits 3 three_pages)) = seq 1 3 /\
  NoDup (requested_pages (trace (get_commits 3 three_pages))) /\
  (3 = 3 -> length (sample_pages 3) = 37 ->
     exists commits,
       run (get_commits 3 three_pages) = Returns commits /\
       length commits = 237 /\
       length (requested_pages (trace (get_commits 3 three_pages))) = 3).
Proof.
  apply (paginated_fetch three_pages sample_pages 3 3).
  - lia.
  - intros i Hi. destruct i as [|[|[|[|i]]]]; try reflexivity; lia.
  - intros i Hi. destruct i as [|[|[|i]]]; try reflexivity; lia.
  - vm_compute. lia.
  - lia.
Defined.

Lemma file_types_grouping_sample :
  exists chart,
    StatsVisualizer.generate_file_types_chart
      (document [("a", 60); ("b", 39); ("c", 1)]%string%Z []) =
      (Ok chart, document [("a", 60); ("b", 39); ("c", 1)]%string%Z []) /\
    StatsVisualizer.labels chart = ["a"; "b"; "Other"]%string /\
    StatsVisualizer.heights chart = [60; 39; 1]%Z /\
    (In "Other"%string (StatsVisualizer.labels chart) <-> (1 > 0)%Z).
Proof.
  destruct file_types_grouping as [H _].
  destruct (H (document [("a", 60); ("b", 39); ("c", 1)]%string%Z []))
    as [chart [H1 [H2 [H3 H4]]]].
  - repeat constructor; simpl; intuition discriminate.
  - simpl. intuition discriminate.
  - simpl. lia.
  - exists chart. split; [exact H1|]. split; [exact H2|].
    split; [exact H3|]. exact H4.
Defined.

Lemma extension_tokens_sample :
  blob_paths (tree_entry "src" "tree" :: []) = blob_paths [] /\
  run (get_file_types three_pages) =
    Returns (Counter (map (fun e => effective_extension (fst e))
                        (blobs sample_entries))).
Proof.
  destruct extension_tokens as [_ [_ [_ [H1 H2]]]]. split.
  - apply (H1 (tree_entry "src" "tree") [] (JStr "tree")); reflexivity.
  - eapply (H2 three_pages); try reflexivity.
    repeat constructor.
Defined.

Lemma contributor_ranking_sample :
  StatsVisualizer.sort StatsVisualizer.by_contributions_desc
    [person "octocat" 32; person "hubot" 5] =
    [person "octocat" 32; person "hubot" 5] /\
  StatsVisualizer.top_contributors (rev fifteen_distinct) =
    StatsVisualizer.top_contributors fifteen_distinct /\
  map StatsVisualizer.contributions
    (StatsVisualizer.top_contributors fifteen_shuffled) =
  map StatsVisualizer.contributions
    (StatsVisualizer.top_contributors fifteen) /\
  StatsVisualizer.top_contributors
    [person "a" 15; person "j" 6; person "k" 6] =
  StatsVisualizer.top_contributors
    [person "j" 6; person "k" 6; person "a" 15].
Proof.
  destruct contributor_ranking as [_ [H1 [_ [H2 [H3 [_ [_ H4]]]]]]].
  split; [|split; [|split]].
  - apply H1. repeat constructor; unfold StatsVisualizer.ge_contributions;
      simpl; lia.
  - apply H2; [apply Permutation_rev|].
    repeat constructor; simpl; intuition discriminate.
  - apply H3. unfold fifteen, fifteen_shuffled.
    do 9 apply perm_skip. apply perm_swap.
  - apply H4.
    + apply Permutation_sym.
      apply (Permutation_cons_app [person "j" 6; person "k" 6] []).
      apply Permutation_refl.
    + intros count. cbn [filter person StatsVisualizer.contributions].
      destruct (Z.eqb_spec 15 count) as [E1|E1];
        destruct (Z.eqb_spec 6 count) as [E2|E2];
        try reflexivity. lia.
Defined.

Lemma failed_page_without_json_sample :
  run (get_commits 2 broken_second_page) = Raises JSONDecodeError.
Proof.
  apply (failed_page_without_json broken_second_page (page_of 100) 502 2).
  - reflexivity.
  - reflexivity.
  - reflexivity.
  - discriminate.
  - lia.
Defined.

Lemma failed_fetches_give_empty_results_sample :
  (run (get_file_types degraded) = Returns [] /\
   run (generate_report analyzer 1 degraded) =
     Returns {| repository := repo analyzer;
                analysis_period_days := days analyzer;
                total_commits := 2;
                commit_frequency :=
                  [("2024-01-03", 1); ("2024-01-02", 1)]%string;
                authors := [(KStr "octocat", 1); (KStr "hubot", 1)];
                file_types := [];
                contributors := [] |}) /\
  (run (get_contributors degraded) = Returns (JArr []) /\
   run (generate_report analyzer 1 degraded) =
     Returns {| repository := repo analyzer;
                analysis_period_days := days analyzer;
                total_commits := 2;
                commit_frequency :=
                  [("2024-01-03", 1); ("2024-01-02", 1)]%string;
                authors := [(KStr "octocat", 1); (KStr "hubot", 1)];
                file_types := [];
                contributors := [] |}).
Proof.
  destruct (failed_fetches_give_empty_results degraded) as [H1 H2].
  destruct H1 as [H1 H1']; [discriminate|].
  destruct H2 as [H2 H2']; [discriminate|].
  split; split; try assumption.
  - apply (H1' analyzer 1 two_commits _ _ (JArr []) []); reflexivity.
  - apply (H2' analyzer 1 two_commits _ _ []); reflexivity.
Defined.

Lemma aggregation_order_independent_sample :
  exists r',
    run (generate_report analyzer 1 degraded_reversed) = Returns r' /\
    same_mapping String.eqb
      [("2024-01-03", 1); ("2024-01-02", 1)]%string (commit_frequency r') /\
    same_mapping pykey_eqb
      [(KStr "octocat", 1); (KStr "hubot", 1)] (authors r') /\
    2 = total_commits r'.
Proof.
  apply (aggregation_order_independent analyzer 1 1 degraded
           degraded_reversed two_commits (rev two_commits)
           {| repository := repo analyzer;
              analysis_period_days := days analyzer;
              total_commits := 2;
              commit_frequency :=
                [("2024-01-03", 1); ("2024-01-02", 1)]%string;
              authors := [(KStr "octocat", 1); (KStr "hubot", 1)];
              file_types := [];
              contributors := [] |}); try reflexivity.
  apply Permutation_rev.
Defined.

Lemma aggregation_needs_fields_sample :
  ((forall k, count_commits two_commits ([], []) <> Err (KeyError k)) /\
   (exists cd au, count_commits two_commits ([], []) = Ok (cd, au))) /\
  (run (generate_report analyzer 1 with_nameless) =
     Raises (KeyError "name") /\
   exists k, run (generate_report analyzer 1 with_nameless) =
             Raises (KeyError k)).
Proof.
  assert (W1 : well_formed
                 (commit_record "2024-01-03T10:00:00Z" "octocat")).
  { do 4 eexists. repeat split; reflexivity. }
  assert (W2 : well_formed
                 (commit_record "2024-01-02T08:30:00Z" "hubot")).
  { do 4 eexists. repeat split; reflexivity. }
  assert (L : lacks_field nameless "name").
  { right. eexists. split; [reflexivity|].
    right. eexists. split; [reflexivity|].
    right. split; [reflexivity|]. split.
    - eexists. split; reflexivity.
    - eexists. reflexivity. }
  split.
  - destruct (aggregation_needs_fields analyzer 1 degraded two_commits
                eq_refl) as [H1 [H2 _]].
    split.
    + apply H1. repeat constructor; do 4 eexists; repeat split; reflexivity.
    + apply H2. repeat constructor; assumption.
  - destruct (aggregation_needs_fields analyzer 1 with_nameless
                [commit_record "2024-01-03T10:00:00Z" "octocat"; nameless;
                 commit_record "2024-01-02T08:30:00Z" "hubot"]
                eq_refl) as [_ [_ [H3 H4]]].
    split.
    + apply (H3 [commit_record "2024-01-03T10:00:00Z" "octocat"] nameless
               [commit_record "2024-01-02T08:30:00Z" "hubot"]).
      * reflexivity.
      * repeat constructor. exact W1.
      * exact L.
    + apply H4.
      * intros c [<-|[<-|[<-|[]]]].
        -- left. exact W1.
        -- right. exists "name"%string. exact L.
        -- left. exact W2.
      * exists nameless, "name"%string. split; [|exact L].
        right. now left.
Defined.
End Samples.

(* ================================================================== *)
(** * Further properties of the fetches                               *)
(* ================================================================== *)

Section Loop.
Import Py RepoStats.

(** One turn of the loop: either it ends there, having asked for this
    page only, or the page was full and the loop goes on with the next. *)
Lemma get_commits_loop_turn fuel api all_commits page log :
  (exists o evs,
     get_commits_loop (S fuel) api all_commits page log =
       (o, log ++ Get_commits page :: evs) /\
     o <> Timeout /\ requested_pages evs = []) \/
  (full_page (commits_endpoint api page) /\
   exists items,
     get_commits_loop (S fuel) api all_commits page log =
     get_commits_loop fuel api (all_commits ++ items) (S page)
       (log ++ [Get_commits page])).
Proof.
  destruct (Z.eqb_spec (status_code (commits_endpoint api page)) 200)
    as [Hs|Hs].
  - cbn [get_commits_loop]. unfold bind, emit, response_json, lift, ret, raise.
    rewrite Hs. cbn [Z.eqb Pos.eqb negb].
    destruct (body (commits_endpoint api page)) as [v|] eqn:Hb.
    + destruct (truthy v) eqn:Ht; cbn [negb].
      * destruct (iterate v) as [items|e] eqn:Hi.
        -- destruct (len v) as [n|e] eqn:Hl.
           ++ destruct (n <? per_page) eqn:Hn.
              ** left. exists (Returns (all_commits ++ items)), [].
                 repeat split; [discriminate].
              ** right. split.
                 --- split; [exact Hs|]. exists v, items, n.
                     apply Nat.ltb_ge in Hn. now repeat split.
                 --- now exists items.
           ++ left. exists (Raises e), []. repeat split. discriminate.
        -- left. exists (Raises e), []. repeat split. discriminate.
      * left. exists (Returns all_commits), []. repeat split. discriminate.
    + left. exists (Raises JSONDecodeError), []. repeat split. discriminate.
  - left. apply Z.eqb_neq in Hs.
    rewrite (get_commits_loop_failed _ _ _ _ _ Hs). cbv zeta.
    destruct (body (commits_endpoint api page)) as [doc|].
    + destruct (get_default doc "message" (JStr "Unknown error")) as [msg|e].
      * eexists (Returns all_commits), _. split; [|split].
        -- rewrite <- app_assoc. reflexivity.
        -- discriminate.
        -- reflexivity.
      * eexists (Raises e), _. split; [reflexivity|]. split;
           [discriminate|reflexivity].
    + eexists (Raises JSONDecodeError), _. split; [reflexivity|]. split;
        [discriminate|reflexivity].
Qed.

Lemma requested_pages_app l l' :
  requested_pages (l ++ l') = requested_pages l ++ requested_pages l'.
Proof. apply flat_map_app. Qed.

Lemma get_commits_loop_requests fuel api :
  forall all_commits page log,
  exists n,
    n <= fuel /\
    requested_pages (snd (get_commits_loop fuel api all_commits page log)) =
    requested_pages log ++ seq page n.
Proof.
  induction fuel as [|fuel IH]; intros all_commits page log.
  - exists 0. split; [lia|]. simpl. now rewrite app_nil_r.
  - destruct (get_commits_loop_turn fuel api all_commits page log)
      as [[o [evs [E [_ Hevs]]]]|[_ [items E]]].
    + exists 1. split; [lia|]. rewrite E. cbn [snd].
      rewrite requested_pages_app. cbn [requested_pages flat_map].
      fold (requested_pages evs). now rewrite Hevs.
    + rewrite E.
      destruct (IH (all_commits ++ items) (S page)
                  (log ++ [Get_commits page])) as [n [Hn Hr]].
      exists (S n). split; [lia|]. rewrite Hr, requested_pages_app.
      cbn [requested_pages flat_map seq app]. now rewrite <- app_assoc.
Qed.

(** X1. Whatever the provider answers, [get_commits] asks for the pages
    1, 2, ..., n in this order for some n within its budget of turns: no
    page is asked for twice and none is skipped. *)
Theorem requests_count_up fuel api :
  exists n,
    n <= fuel /\
    requested_pages (trace (get_commits fuel api)) = seq 1 n /\
    NoDup (requested_pages (trace (get_commits fuel api))).
Proof.
  destruct (get_commits_loop_requests fuel api [] 1 []) as [n [Hn Hr]].
  exists n. unfold trace, get_commits. rewrite Hr. cbn [requested_pages flat_map app].
  repeat split; [exact Hn|apply seq_NoDup].
Qed.

Lemma get_commits_loop_timeout fuel api :
  forall all_commits page log,
    fst (get_commits_loop fuel api all_commits page log) = Timeout ->
    forall i, page <= i < page + fuel ->
      full_page (commits_endpoint api i).
Proof.
  induction fuel as [|fuel IH]; intros all_commits page log H i Hi; [lia|].
  destruct (get_commits_loop_turn fuel api all_commits page log)
    as [[o [evs [E [Ho _]]]]|[Hfull [items E]]].
  - rewrite E in H. cbn [fst] in H. contradiction.
  - destruct (Nat.eq_dec i page) as [->|Hne]; [exact Hfull|].
    rewrite E in H. apply (IH _ _ _ H). lia.
Qed.

Lemma get_commits_loop_full_page fuel api all_commits page log :
  full_page (commits_endpoint api page) ->
  exists items,
    get_commits_loop (S fuel) api all_commits page log =
    get_commits_loop fuel api (all_commits ++ items) (S page)
      (log ++ [Get_commits page]).
Proof.
  intros [Hs [v [items [n [Hb [Ht [Hi [Hl Hn]]]]]]]]. exists items.
  cbn [get_commits_loop]. unfold bind, emit, response_json, lift, ret.
  rewrite Hs, Hb. cbn [Z.eqb Pos.eqb negb]. rewrite Ht, Hi, Hl.
  cbn [negb]. apply Nat.ltb_ge in Hn. now rewrite Hn.
Qed.

Lemma get_commits_loop_runs fuel api :
  forall all_commits page log,
    (forall i, page <= i < page + fuel ->
       full_page (commits_endpoint api i)) ->
    fst (get_commits_loop fuel api all_commits page log) = Timeout.
Proof.
  induction fuel as [|fuel IH]; intros all_commits page log H;
    [reflexivity|].
  destruct (get_commits_loop_full_page fuel api all_commits page log)
    as [items E]; [apply H; lia|].
  rewrite E. apply IH. intros i Hi. apply H. lia.
Qed.

(** X2. The loop of [get_commits] is still running after [fuel] turns
    exactly when each of the pages 1 to [fuel] answered 200 with at least
    100 items: any other answer ends the fetch at that page. *)
Theorem loop_runs_on_full_pages_only fuel api :
  run (get_commits fuel api) = Timeout <->
  (forall i, 1 <= i <= fuel -> full_page (commits_endpoint api i)).
Proof.
  split.
  - intros H i Hi. apply (get_commits_loop_timeout fuel api [] 1 [] H). lia.
  - intros H. apply get_commits_loop_runs. intros i Hi. apply H. lia.
Qed.

(** X3. When a page fails with a JSON object as body, after [k] full
    pages, [get_commits] returns the items of those pages and prints the
    status, then the member [message] of the object, or "Unknown error"
    when the object has none; it asks for no further page. *)
Theorem failed_page_with_message api pages k fuel members :
  (forall i, 1 <= i <= k ->
     commits_endpoint api i = ok_page (pages i) /\
     length (pages i) = per_page) ->
  status_code (commits_endpoint api (S k)) <> 200%Z ->
  body (commits_endpoint api (S k)) = Some (JObj members) ->
  k < fuel ->
  run (get_commits fuel api) = Returns (flat_map pages (seq 1 k)) /\
  trace (get_commits fuel api) =
    map Get_commits (seq 1 (S k)) ++
    [Print_error "Error fetching commits"
       (status_code (commits_endpoint api (S k)));
     Print_value
       match dict_get String.eqb "message"%string members with
       | Some msg => msg
       | None => JStr "Unknown error"
       end].
Proof.
  intros Hfull Hs Hb Hf. apply Z.eqb_neq in Hs. unfold run, trace.
  rewrite (failed_page api pages k fuel Hfull Hs Hf). cbv zeta.
  rewrite Hb. cbn [get_default].
  destruct (dict_get String.eqb "message"%string members); now split.
Qed.

(** X4. When a page fails with a JSON body that is not an object (a
    list, a string, a number, [null]), printing the diagnostic raises
    [AttributeError] and the items fetched so far are not returned. *)
Theorem failed_page_without_object api pages k fuel doc :
  (forall i, 1 <= i <= k ->
     commits_endpoint api i = ok_page (pages i) /\
     length (pages i) = per_page) ->
  status_code (commits_endpoint api (S k)) <> 200%Z ->
  body (commits_endpoint api (S k)) = Some doc ->
  (forall members, doc <> JObj members) ->
  k < fuel ->
  run (get_commits fuel api) = Raises AttributeError.
Proof.
  intros Hfull Hs Hb Hd Hf. apply Z.eqb_neq in Hs. unfold run.
  rewrite (failed_page api pages k fuel Hfull Hs Hf). cbv zeta.
  rewrite Hb. destruct doc; try reflexivity.
  exfalso. now apply (Hd members).
Qed.
End Loop.

(* ================================================================== *)
(** * Further properties of the counters                              *)
(* ================================================================== *)

Section CountingFacts.
Import Py.
Context {K : Type}.
Variable eqb : K -> K -> bool.
Hypothesis eqb_eq : forall a b, eqb a b = true <-> a = b.

Lemma in_keys_incr x k (d : list (K * nat)) :
  In x (keys (dict_incr eqb k d)) <-> x = k \/ In x (keys d).
Proof.
  induction d as [|[k' n] d IH]; cbn [dict_incr keys map fst].
  - simpl. intuition congruence.
  - destruct (eqb k k') eqn:E; cbn [map fst].
    + apply eqb_eq in E. subst k'. simpl. intuition congruence.
    + fold (keys (dict_incr eqb k d)). fold (keys d). simpl.
      rewrite IH. intuition.
Qed.

Lemma nodup_keys_incr k (d : list (K * nat)) :
  NoDup (keys d) -> NoDup (keys (dict_incr eqb k d)).
Proof.
  induction d as [|[k' n] d IH]; cbn [dict_incr keys map fst]; intros H.
  - repeat constructor. intros [].
  - inversion H as [|? ? Hk Hd]; subst.
    destruct (eqb k k') eqn:E; cbn [map fst].
    + now constructor.
    + constructor; [|now apply IH].
      fold (keys (dict_incr eqb k d)). rewrite in_keys_incr.
      intros [->|Hin]; [|now apply Hk].
      rewrite (proj2 (eqb_eq k k) eq_refl) in E. discriminate.
Qed.

Lemma count_all_lookup l :
  forall (d : list (K * nat)) k,
    count_of eqb k (fold_left (fun d e => dict_incr eqb e d) l d) =
    count_of eqb k d + occurrences eqb k l.
Proof.
  unfold occurrences.
  induction l as [|e l IH]; intros d k; cbn [fold_left filter].
  - simpl. lia.
  - rewrite IH, (count_of_incr eqb eqb_eq).
    destruct (eqb k e); simpl; lia.
Qed.

Lemma count_all_nodup l :
  forall d : list (K * nat),
    NoDup (keys d) ->
    NoDup (keys (fold_left (fun d e => dict_incr eqb e d) l d)).
Proof.
  induction l as [|e l IH]; intros d H; cbn [fold_left]; [exact H|].
  now apply IH, nodup_keys_incr.
Qed.

Lemma count_all_keys l :
  forall (d : list (K * nat)) x,
    In x (keys (fold_left (fun d e => dict_incr eqb e d) l d)) <->
    In x (keys d) \/ In x l.
Proof.
  induction l as [|e l IH]; intros d x; cbn [fold_left].
  - simpl. intuition.
  - rewrite IH, in_keys_incr. simpl. intuition.
Qed.

Lemma count_all_sum l :
  forall d : list (K * nat),
    sum (values (fold_left (fun d e => dict_incr eqb e d) l d)) =
    sum (values d) + length l.
Proof.
  induction l as [|e l IH]; intros d; cbn [fold_left length]; [lia|].
  rewrite IH, sum_values_incr. lia.
Qed.
End CountingFacts.

Section Counting.
Import Py RepoStats.

Lemma tally_fst ks :
  forall acc,
    fst (tally ks acc) =
    fold_left (fun d e => dict_incr String.eqb e d) (map fst ks) (fst acc).
Proof.
  unfold tally. induction ks as [|dk ks IH]; intros acc; [reflexivity|].
  cbn [fold_left map]. now rewrite IH.
Qed.

Lemma tally_snd ks :
  forall acc,
    snd (tally ks acc) =
    fold_left (fun d e => dict_incr pykey_eqb e d) (map snd ks) (snd acc).
Proof.
  unfold tally. induction ks as [|dk ks IH]; intros acc; [reflexivity|].
  cbn [fold_left map]. now rewrite IH.
Qed.

(** What a returned report is made of. *)
Lemma generate_report_parts self fuel api r :
  run (generate_report self fuel api) = Returns r ->
  exists commits ks ft cv entries,
    run (get_commits fuel api) = Returns commits /\
    rmap commit_keys commits = Ok ks /\
    run (get_file_types api) = Returns ft /\
    run (get_contributors api) = Returns cv /\
    rbind (first_ten cv) (fun top =>
      rbind (iterate top) (rmap contributor_entry)) = Ok entries /\
    r = {| repository := repo self;
           analysis_period_days := days self;
           total_commits := length commits;
           commit_frequency := fst (tally ks ([], []));
           authors := snd (tally ks ([], []));
           file_types := ft;
           contributors := entries |}.
Proof.
  rewrite generate_report_run.
  destruct (run (get_commits fuel api)) as [commits|e|] eqn:Hc;
    try discriminate.
  rewrite count_commits_keys.
  destruct (rmap commit_keys commits) as [ks|e] eqn:Hk; cbn [rbind];
    try discriminate.
  destruct (tally ks ([], [])) as [cd au] eqn:T.
  destruct (run (get_file_types api)) as [ft|e|] eqn:Hf; try discriminate.
  destruct (run (get_contributors api)) as [cv|e|] eqn:Hv; try discriminate.
  destruct (rbind (first_ten cv) _) as [entries|e] eqn:E; try discriminate.
  intros H. inversion H; subst.
  exists commits, ks, ft, cv, entries. rewrite T. now repeat split.
Qed.

(** X5. In a returned report each entry of [commit_frequency] is the
    number of fetched commits whose date starts with that day, and each
    entry of [authors] the number of fetched commits of that author; a
    day or an author without commits has no entry. *)
Theorem report_counts_are_occurrences self fuel api r :
  run (generate_report self fuel api) = Returns r ->
  exists commits ks,
    run (get_commits fuel api) = Returns commits /\
    rmap commit_keys commits = Ok ks /\
    (forall day,
       count_of String.eqb day (commit_frequency r) =
       occurrences String.eqb day (map fst ks)) /\
    (forall author,
       count_of pykey_eqb author (authors r) =
       occurrences pykey_eqb author (map snd ks)) /\
    (forall day, In day (keys (commit_frequency r)) <-> In day (map fst ks)) /\
    (forall author,
       In author (keys (authors r)) <-> In author (map snd ks)).
Proof.
  intros H.
  destruct (generate_report_parts _ _ _ _ H)
    as [commits [ks [ft [cv [entries [Hc [Hk [_ [_ [_ ->]]]]]]]]]].
  exists commits, ks. cbn [commit_frequency authors].
  rewrite tally_fst, tally_snd. cbn [fst snd].
  split; [exact Hc|]. split; [exact Hk|]. split; [|split; [|split]].
  - intros day. now rewrite (count_all_lookup _ String.eqb_eq).
  - intros author. now rewrite (count_all_lookup _ pykey_eqb_eq).
  - intros day. rewrite (count_all_keys _ String.eqb_eq). simpl. intuition.
  - intros author. rewrite (count_all_keys _ pykey_eqb_eq). simpl.
    intuition.
Qed.
End Counting.

(* ================================================================== *)
(** * Further properties of the extension tokens and the file types   *)
(* ================================================================== *)

Section Tokens.
Import Py RepoStats.

Lemma after_last_none c p : after_last c p = None <-> ~ In c p.
Proof.
  induction p as [|a p IH]; cbn [after_last].
  - split; [intros _ []|reflexivity].
  - destruct (after_last c p) as [r|] eqn:E.
    + split; [discriminate|]. intros H. exfalso. apply H. right.
      destruct (after_last_split _ _ _ E) as [pre [-> _]].
      apply in_or_app. right. now left.
    + destruct (Ascii.eqb_spec a c) as [->|Hne].
      * split; [discriminate|]. intros H. exfalso. apply H. now left.
      * split; [|reflexivity]. intros _ [Heq|Hin]; [now apply Hne|].
        now apply (proj1 IH).
Qed.

Lemma after_last_suffix c p r x :
  after_last c p = Some r -> In x r -> In x p.
Proof.
  intros E Hin. destruct (after_last_split _ _ _ E) as [pre [-> _]].
  apply in_or_app. right. now right.
Qed.

Lemma strip_dots_suffix p x : In x (strip_dots p) -> In x p.
Proof.
  induction p as [|a p IH]; cbn [strip_dots]; [trivial|].
  destruct (is_dot a); [|trivial]. intros H. right. now apply IH.
Qed.

Lemma final_component_no_slash p : ~ In slash (final_component p).
Proof.
  destruct (final_component_split p) as [dir [_ [H _]]].
  now apply after_last_none.
Qed.

Lemma lower_char_shape c :
  is_upper (lower_char c) = false /\
  (lower_char c = dot -> c = dot) /\
  (lower_char c = slash -> c = slash) /\
  lower_char (lower_char c) = lower_char c.
Proof.
  destruct c as [[] [] [] [] [] [] [] []]; vm_compute;
    repeat split; intros H; try reflexivity; try discriminate H.
Qed.

Lemma extension_token_chars f :
  extension_token f <> EmptyString /\
  Forall (fun c => is_upper c = false /\ c <> dot /\ c <> slash)
    (list_ascii_of_string (extension_token f)).
Proof.
  rewrite extension_token_effective. unfold effective_extension.
  destruct (after_last dot (strip_dots _)) as [[|a e]|] eqn:E.
  - split; [discriminate|]. repeat constructor; discriminate.
  - split; [discriminate|].
    rewrite list_ascii_of_string_of_list_ascii. unfold lower.
    rewrite Forall_map, Forall_forall. intros c Hc.
    destruct (lower_char_shape c) as [Hu [Hd [Hs _]]].
    split; [exact Hu|]. split.
    + intros Heq. apply Hd in Heq. subst c.
      destruct (after_last_split _ _ _ E) as [pre [_ Hn]].
      now apply after_last_none in Hn.
    + intros Heq. apply Hs in Heq. subst c.
      apply (final_component_no_slash (list_ascii_of_string f)).
      apply strip_dots_suffix. now apply (after_last_suffix _ _ _ _ E).
  - split; [discriminate|]. repeat constructor; discriminate.
Qed.

Lemma extension_token_not_other f : extension_token f <> "Other"%string.
Proof.
  destruct (extension_token_chars f) as [_ H]. intros Heq.
  rewrite Heq in H. inversion H as [|? ? [Hu _] _]; subst.
  discriminate Hu.
Qed.

(** X7. The extension token is never empty, holds no letter A to Z, no
    dot and no slash; in particular no file is counted under "Other". *)
Theorem extension_token_shape f :
  extension_token f <> EmptyString /\
  Forall (fun c => is_upper c = false /\ c <> dot /\ c <> slash)
    (list_ascii_of_string (extension_token f)) /\
  extension_token f <> "Other"%string.
Proof.
  destruct (extension_token_chars f) as [H1 H2].
  split; [exact H1|]. split; [exact H2|]. apply extension_token_not_other.
Qed.

Lemma list_ascii_of_string_app s t :
  list_ascii_of_string (s ++ t)%string =
  list_ascii_of_string s ++ list_ascii_of_string t.
Proof. induction s as [|a s IH]; simpl; [reflexivity|now rewrite IH]. Qed.

(** X9. The token depends on the final component of the path only: the
    directories before the last slash do not matter, dots in their names
    included. *)
Theorem extension_token_of_final_component dir name :
  ~ In slash (list_ascii_of_string name) ->
  extension_token (dir ++ "/" ++ name)%string = extension_token name.
Proof.
  intros H. rewrite !extension_token_effective. unfold effective_extension.
  rewrite !list_ascii_of_string_app. cbn [list_ascii_of_string app].
  assert (E1 : final_component (list_ascii_of_string name) =
               list_ascii_of_string name).
  { unfold final_component. now rewrite (proj2 (after_last_none _ _) H). }
  assert (E2 : final_component
                 (list_ascii_of_string dir ++
                  "/"%char :: list_ascii_of_string name) =
               list_ascii_of_string name).
  { unfold final_component. rewrite after_last_app. cbn [after_last].
    rewrite (proj2 (after_last_none _ _) H).
    change (Ascii.eqb "/" slash) with true. reflexivity. }
  now rewrite E1, E2.
Qed.

Lemma lower_eqb_dot a : Ascii.eqb (lower_char a) dot = Ascii.eqb a dot.
Proof.
  destruct a as [[] [] [] [] [] [] [] []]; reflexivity.
Qed.

Lemma lower_eqb_slash a : Ascii.eqb (lower_char a) slash = Ascii.eqb a slash.
Proof.
  destruct a as [[] [] [] [] [] [] [] []]; reflexivity.
Qed.

Lemma after_last_lower_dot p :
  after_last dot (lower p) = option_map lower (after_last dot p).
Proof.
  induction p as [|a p IH]; [reflexivity|].
  cbn [lower map after_last]. fold (lower p). rewrite IH, lower_eqb_dot.
  destruct (after_last dot p); [reflexivity|].
  now destruct (Ascii.eqb a dot).
Qed.

Lemma after_last_lower_slash p :
  after_last slash (lower p) = option_map lower (after_last slash p).
Proof.
  induction p as [|a p IH]; [reflexivity|].
  cbn [lower map after_last]. fold (lower p). rewrite IH, lower_eqb_slash.
  destruct (after_last slash p); [reflexivity|].
  now destruct (Ascii.eqb a slash).
Qed.

Lemma strip_dots_lower p : strip_dots (lower p) = lower (strip_dots p).
Proof.
  induction p as [|a p IH]; [reflexivity|].
  cbn [lower map strip_dots]. fold (lower p). unfold is_dot.
  rewrite lower_eqb_dot. now destruct (Ascii.eqb a dot).
Qed.

Lemma lower_lower p : lower (lower p) = lower p.
Proof.
  unfold lower. rewrite map_map. apply map_ext. intros c.
  apply lower_char_shape.
Qed.

(** X10. The token does not depend on the case of the path: "README.MD"
    and "readme.md" are counted together. *)
Theorem extension_token_ignores_case f :
  extension_token (lower_string f) = extension_token f.
Proof.
  rewrite !extension_token_effective. unfold effective_extension, lower_string.
  rewrite list_ascii_of_string_of_list_ascii.
  assert (E : final_component (lower (list_ascii_of_string f)) =
              lower (final_component (list_ascii_of_string f))).
  { unfold final_component. rewrite after_last_lower_slash.
    now destruct (after_last slash (list_ascii_of_string f)). }
  rewrite E, strip_dots_lower, after_last_lower_dot.
  destruct (after_last dot (strip_dots _)) as [[|a e]|]; cbn [option_map];
    try reflexivity.
  cbn [lower map]. fold (lower e). fold (lower (lower e)).
  destruct (lower_char_shape a) as [_ [_ [_ Ha]]].
  now rewrite Ha, lower_lower.
Qed.

Lemma rmap_extension_of_tokens files exts :
  rmap extension_of files = Ok exts ->
  Forall (fun e => exists f, e = extension_token f) exts.
Proof.
  revert exts. induction files as [|v files IH]; intros exts H.
  - inversion H. constructor.
  - cbn [rmap] in H. destruct v; try discriminate H.
    cbn [extension_of rbind] in H.
    destruct (rmap extension_of files) as [ys|]; [|discriminate H].
    inversion H; subst. constructor; [now exists s|now apply IH].
Qed.

(** Whatever the tree endpoint answers, a returned counter counts
    extension tokens. *)
Lemma get_file_types_returns api ft :
  run (get_file_types api) = Returns ft ->
  exists exts,
    ft = Counter exts /\
    Forall (fun e => exists f, e = extension_token f) exts.
Proof.
  unfold run, get_file_types, bind, emit, response_json, lift, ret, raise.
  destruct (negb _).
  - intros H. inversion H. exists []. split; [reflexivity|constructor].
  - destruct (body (tree_endpoint api)) as [data|]; [|discriminate].
    destruct (get_default data "tree" (JArr [])) as [tree|]; [|discriminate].
    destruct (iterate tree) as [items|]; [|discriminate].
    destruct (blob_paths items) as [files|]; [|discriminate].
    destruct (rmap extension_of files) as [exts|] eqn:E; [|discriminate].
    intros H. inversion H. exists exts. split; [reflexivity|].
    exact (rmap_extension_of_tokens files exts E).
Qed.

(** X6. In a returned report no key occurs twice in [commit_frequency],
    in [authors] or in [file_types], and [file_types] has no key
    "Other": the report is a document on which the grouping of the file
    types chart loses no category. *)
Theorem report_keys_unique self fuel api r :
  run (generate_report self fuel api) = Returns r ->
  NoDup (keys (commit_frequency r)) /\
  NoDup (keys (authors r)) /\
  NoDup (keys (file_types r)) /\
  ~ In "Other"%string (keys (file_types r)).
Proof.
  intros H.
  destruct (generate_report_parts _ _ _ _ H)
    as [commits [ks [ft [cv [entries [_ [_ [Hf [_ [_ ->]]]]]]]]]].
  cbn [commit_frequency authors file_types].
  rewrite tally_fst, tally_snd. cbn [fst snd].
  destruct (get_file_types_returns _ _ Hf) as [exts [-> Hexts]].
  split; [|split; [|split]].
  - apply (count_all_nodup _ String.eqb_eq). constructor.
  - apply (count_all_nodup _ pykey_eqb_eq). constructor.
  - apply (count_all_nodup _ String.eqb_eq). constructor.
  - unfold Counter. rewrite (count_all_keys _ String.eqb_eq).
    intros [[]|Hin]. rewrite Forall_forall in Hexts.
    destruct (Hexts _ Hin) as [f Hf'].
    now apply (extension_token_not_other f).
Qed.

Lemma get_file_types_entries api data items entries :
  status_code (tree_endpoint api) = 200%Z ->
  body (tree_endpoint api) = Some data ->
  get_default data "tree" (JArr []) = Ok (JArr items) ->
  Forall2 describes items entries ->
  run (get_file_types api) =
  Returns (Counter (map (fun e => extension_token (fst e)) (blobs entries))).
Proof.
  intros Hs Hb Ht He.
  unfold run, get_file_types, bind, emit, response_json, lift, ret.
  rewrite Hs, Hb. cbn [Z.eqb Pos.eqb negb]. rewrite Ht. cbn [iterate].
  rewrite (blob_paths_entries _ _ He).
  rewrite <- (map_map fst JStr), rmap_extension_of.
  cbn [fst]. now rewrite map_map.
Qed.

(** X8. When the tree endpoint answers 200 with a list of entries that
    carry a path and a type, the counts of the returned counter add up to
    the number of blobs, and the count of each token is the number of
    blobs whose path gives that token. *)
Theorem file_types_count_blobs api data items entries :
  status_code (tree_endpoint api) = 200%Z ->
  body (tree_endpoint api) = Some data ->
  get_default data "tree" (JArr []) = Ok (JArr items) ->
  Forall2 describes items entries ->
  exists ft,
    run (get_file_types api) = Returns ft /\
    sum (values ft) = length (blobs entries) /\
    forall token,
      count_of String.eqb token ft =
      occurrences String.eqb token
        (map (fun e => extension_token (fst e)) (blobs entries)).
Proof.
  intros Hs Hb Ht He. eexists. split.
  - now apply (get_file_types_entries api data items entries).
  - unfold Counter. split.
    + rewrite count_all_sum. simpl. now rewrite length_map.
    + intros token. now rewrite (count_all_lookup _ String.eqb_eq).
Qed.

Lemma blob_paths_first_error pre item post entries e :
  Forall2 describes pre entries ->
  (forall rest, blob_paths (item :: rest) = Err e) ->
  blob_paths (pre ++ item :: post) = Err e.
Proof.
  intros HF Hitem.
  induction HF as [|x d pre entries [Hp Ht] _ IH]; [apply Hitem|].
  cbn [app blob_paths]. rewrite Ht. cbn [rbind is_blob].
  destruct (String.eqb (snd d) "blob"); [|exact IH].
  rewrite Hp. cbn [rbind]. now rewrite IH.
Qed.

(** X12. A tree entry without the member [type], or a blob without the
    member [path], makes [get_file_types] raise [KeyError] for that
    member, the entries before it being in order: the entry is not
    skipped. *)
Theorem tree_entry_needs_members api data pre item post entries k :
  status_code (tree_endpoint api) = 200%Z ->
  body (tree_endpoint api) = Some data ->
  get_default data "tree" (JArr []) = Ok (JArr (pre ++ item :: post)) ->
  Forall2 describes pre entries ->
  (k = "type"%string /\ missing item k) \/
  (k = "path"%string /\ missing item k /\
   getitem item "type" = Ok (JStr "blob")) ->
  run (get_file_types api) = Raises (KeyError k).
Proof.
  intros Hs Hb Ht He Hk.
  unfold run, get_file_types, bind, emit, response_json, lift, ret, raise.
  rewrite Hs, Hb. cbn [Z.eqb Pos.eqb negb]. rewrite Ht. cbn [iterate].
  rewrite (blob_paths_first_error pre item post entries (KeyError k) He);
    [reflexivity|].
  intros rest. cbn [blob_paths].
  destruct Hk as [[-> Hm]|[-> [Hm Hty]]].
  - now rewrite (missing_getitem _ _ Hm).
  - rewrite Hty. cbn [rbind is_blob String.eqb].
    change (String.eqb "blob" "blob") with true. cbv iota.
    now rewrite (missing_getitem _ _ Hm).
Qed.

Lemma rmap_lists items entries :
  Forall2 lists items entries -> rmap contributor_entry items = Ok entries.
Proof.
  induction 1 as [|item [l c] items entries [Hl Hc] _ IH]; [reflexivity|].
  cbn [rmap]. unfold contributor_entry at 1. rewrite Hl. cbn [rbind].
  rewrite Hc. cbn [rbind]. now rewrite IH.
Qed.

Lemma rmap_chars s entries :
  rmap contributor_entry (chars s) = Ok entries -> entries = [].
Proof.
  destruct s as [|a s]; cbn [chars rmap]; intros H; [now inversion H|].
  discriminate H.
Qed.

(** X11. A returned report lists at most ten contributors.  When the
    contributors endpoint answers 200 with a list whose first ten
    entries carry a login and a count, the report lists exactly these, in
    the order of the provider; later entries are not looked at. *)
Theorem contributors_first_ten self fuel api r :
  run (generate_report self fuel api) = Returns r ->
  length (contributors r) <= 10 /\
  forall items shown,
    status_code (contributors_endpoint api) = 200%Z ->
    body (contributors_endpoint api) = Some (JArr items) ->
    Forall2 lists (firstn 10 items) shown ->
    contributors r = shown.
Proof.
  intros H.
  destruct (generate_report_parts _ _ _ _ H)
    as [commits [ks [ft [cv [entries [_ [_ [_ [Hv [He ->]]]]]]]]]].
  cbn [contributors]. split.
  - destruct cv; try discriminate He; cbn [first_ten rbind iterate] in He.
    + apply rmap_chars in He. subst. simpl. lia.
    + apply rmap_length in He. rewrite He, length_firstn. lia.
  - intros items shown Hs Hb HF.
    unfold run, get_contributors, bind, emit, response_json, ret in Hv.
    rewrite Hs, Hb in Hv. cbn in Hv. inversion Hv; subst cv.
    cbn [first_ten rbind iterate] in He.
    rewrite (rmap_lists _ _ HF) in He. now inversion He.
Qed.
End Tokens.

(* ================================================================== *)
(** * Further properties of the chart derivations                     *)
(* ================================================================== *)

Section ListFacts.
Context {A : Type}.

Lemma strongly_sorted_split (R : A -> A -> Prop) l :
  StronglySorted R l ->
  forall n a b, In a (firstn n l) -> In b (skipn n l) -> R a b.
Proof.
  induction 1 as [|x l Hs IH Hx]; intros n a b Ha Hb.
  - destruct n; destruct Ha.
  - destruct n as [|n]; [destruct Ha|].
    cbn [firstn skipn] in Ha, Hb. destruct Ha as [<-|Ha].
    + rewrite Forall_forall in Hx. apply Hx.
      rewrite <- (firstn_skipn n l). apply in_or_app. now right.
    + now apply (IH n).
Qed.

Lemma filter_firstn (p : A -> bool) l :
  forall n,
    filter p (firstn n l) =
    firstn (length (filter p (firstn n l))) (filter p l).
Proof.
  induction l as [|x l IH]; intros n.
  - now rewrite firstn_nil.
  - destruct n as [|n]; [reflexivity|].
    cbn [firstn filter]. destruct (p x); cbn [length firstn].
    + f_equal. apply IH.
    + apply IH.
Qed.

Lemma combine_fst_snd {B} (l : list (A * B)) :
  combine (map fst l) (map snd l) = l.
Proof.
  induction l as [|[a b] l IH]; [reflexivity|]. simpl. now rewrite IH.
Qed.
End ListFacts.

Section Charts.
Import Py StatsVisualizer.

Lemma by_date_asym a b : by_date a b = true -> by_date b a = false.
Proof.
  unfold by_date, String.ltb. rewrite (String.compare_antisym (fst a) (fst b)).
  destruct (String.compare (fst b) (fst a)); simpl; congruence.
Qed.

Lemma by_count_desc_asym a b :
  by_count_desc a b = true -> by_count_desc b a = false.
Proof.
  unfold by_count_desc. intros H. apply Z.gtb_lt in H.
  rewrite Z.gtb_ltb. apply Z.ltb_ge. lia.
Qed.

Lemma by_contributions_desc_asym a b :
  by_contributions_desc a b = true -> by_contributions_desc b a = false.
Proof.
  unfold by_contributions_desc. intros H. apply Z.gtb_lt in H.
  rewrite Z.gtb_ltb. apply Z.ltb_ge. lia.
Qed.

Lemma sorted_map {A B} (R : A -> A -> Prop) (S : B -> B -> Prop)
    (f : A -> B) l :
  (forall a b, R a b -> S (f a) (f b)) ->
  Sorted R l -> Sorted S (map f l).
Proof.
  intros H. induction 1 as [|x l Hs IH Hd]; simpl; constructor;
    [exact IH|].
  destruct Hd; simpl; constructor. now apply H.
Qed.

Lemma sorted_weaken {A} (R S : A -> A -> Prop) l :
  (forall a b, R a b -> S a b) -> Sorted R l -> Sorted S l.
Proof.
  intros H HR. rewrite <- (map_id l). now apply (sorted_map R S).
Qed.

Lemma sorted_firstn {A} (R : A -> A -> Prop) l n :
  Sorted R l -> Sorted R (firstn n l).
Proof.
  intros H. revert n. induction H as [|x l Hs IH Hd]; intros n.
  - rewrite firstn_nil. constructor.
  - destruct n as [|n]; [constructor|]. cbn [firstn].
    constructor; [apply IH|].
    destruct Hd; destruct n; cbn [firstn]; constructor. assumption.
Qed.

(** X13. The commit frequency chart shows every pair of the mapping
    once, the dates in ascending order of their strings, each count under
    its own date; the document is not touched. *)
Theorem commit_frequency_chart_ascending self :
  exists pairs,
    generate_commit_frequency_chart self =
      (Ok {| labels := map fst pairs; heights := map snd pairs |}, self) /\
    Permutation pairs (commit_frequency self) /\
    Sorted (fun a b => String.leb a b = true) (map fst pairs).
Proof.
  exists (sort by_date (commit_frequency self)).
  unfold generate_commit_frequency_chart, keys, values.
  rewrite combine_fst_snd. split; [reflexivity|]. split.
  - apply sort_perm.
  - apply (sorted_map (fun a b => by_date b a = false)).
    + intros a b. unfold by_date, String.ltb, String.leb.
      rewrite (String.compare_antisym (fst a) (fst b)).
      destruct (String.compare (fst b) (fst a)); simpl; congruence.
    + apply sort_sorted_gen, by_date_asym.
Qed.

(** X14. The author activity chart shows the [min 8 n] authors of the
    [n] in the mapping with the largest counts, in descending order of
    count: no author left out has more commits than one shown, and
    authors with equal counts appear in the order of the mapping. *)
Theorem authors_chart_top_eight self :
  exists shown rest,
    generate_authors_activity_chart self =
      (Ok {| labels := map fst shown; heights := map snd shown |}, self) /\
    Permutation (shown ++ rest) (authors self) /\
    length shown = Nat.min 8 (length (authors self)) /\
    Sorted Z.ge (map snd shown) /\
    (forall a b, In a shown -> In b rest -> (snd b <= snd a)%Z) /\
    (forall count, exists m,
       filter (fun a => Z.eqb (snd a) count) shown =
       firstn m (filter (fun a => Z.eqb (snd a) count) (authors self))).
Proof.
  set (sorted := sort by_count_desc (authors self)).
  assert (HS : Sorted (fun a b : string * Z => (snd b <= snd a)%Z) sorted).
  { apply (sorted_weaken (fun a b => by_count_desc b a = false)).
    - intros a b Hb. unfold by_count_desc in Hb. rewrite Z.gtb_ltb in Hb.
      now apply Z.ltb_ge in Hb.
    - apply sort_sorted_gen, by_count_desc_asym. }
  exists (firstn 8 sorted), (skipn 8 sorted).
  split; [reflexivity|]. split; [|split; [|split; [|split]]].
  - rewrite firstn_skipn. apply sort_perm.
  - unfold sorted. rewrite length_firstn.
    now rewrite (Permutation_length (sort_perm by_count_desc (authors self))).
  - apply (sorted_map (fun a b : string * Z => (snd b <= snd a)%Z)).
    + intros a b H. lia.
    + now apply sorted_firstn.
  - intros a b Ha Hb.
    apply (strongly_sorted_split
             (fun a b : string * Z => (snd b <= snd a)%Z) sorted) with (n := 8);
      [|exact Ha|exact Hb].
    apply Sorted_StronglySorted; [|exact HS]. intros x y z; lia.
  - intros count. eexists. rewrite filter_firstn.
    unfold sorted. rewrite (sort_filter by_count_desc); [reflexivity|].
    intros a b Ha Hb. apply Z.eqb_eq in Ha, Hb.
    unfold by_count_desc. rewrite Z.gtb_ltb. apply Z.ltb_ge. lia.
Qed.

(** X15. The contributors chart shows the [min 10 n] contributors of the
    [n] in the document with the largest counts, in descending order of
    count: no contributor left out has more contributions than one shown,
    and contributors with equal counts appear in the order of the
    document. *)
Theorem contributors_chart_top_ten self :
  exists shown rest,
    fst (generate_contributors_chart self) =
      Ok {| labels := map login shown;
            heights := map contributions shown |} /\
    Permutation (shown ++ rest) (contributors self) /\
    length shown = Nat.min 10 (length (contributors self)) /\
    Sorted Z.ge (map contributions shown) /\
    (forall a b, In a shown -> In b rest ->
       (contributions b <= contributions a)%Z) /\
    (forall count, exists m,
       filter (fun a => Z.eqb (contributions a) count) shown =
       firstn m (filter (fun a => Z.eqb (contributions a) count)
                   (contributors self))).
Proof.
  set (sorted := sort by_contributions_desc (contributors self)).
  assert (HS : Sorted ge_contributions sorted) by apply sort_sorted.
  exists (firstn 10 sorted), (skipn 10 sorted).
  split; [reflexivity|]. split; [|split; [|split; [|split]]].
  - rewrite firstn_skipn. apply sort_perm.
  - unfold sorted. rewrite length_firstn.
    now rewrite (Permutation_length
                   (sort_perm by_contributions_desc (contributors self))).
  - apply (sorted_map ge_contributions).
    + unfold ge_contributions. intros a b H. lia.
    + now apply sorted_firstn.
  - intros a b Ha Hb.
    apply (strongly_sorted_split ge_contributions sorted) with (n := 10);
      [|exact Ha|exact Hb].
    apply Sorted_StronglySorted; [|exact HS].
    unfold ge_contributions. intros x y z; lia.
  - intros count. eexists. rewrite filter_firstn.
    unfold sorted. rewrite (sort_filter by_contributions_desc);
      [reflexivity|].
    intros a b Ha Hb. apply Z.eqb_eq in Ha, Hb.
    unfold by_contributions_desc. rewrite Z.gtb_ltb. apply Z.ltb_ge. lia.
Qed.

(** X16. What [generate_contributors_chart] does to the document: the
    contributors are the same, in descending order of count, those with
    equal counts in their former order; every other field is as before;
    a second call changes nothing and draws the same chart. *)
Theorem contributors_chart_effect self :
  let after := snd (generate_contributors_chart self) in
  after = with_contributors self (contributors after) /\
  Permutation (contributors after) (contributors self) /\
  Sorted ge_contributions (contributors after) /\
  (forall count,
     filter (fun a => Z.eqb (contributions a) count) (contributors after) =
     filter (fun a => Z.eqb (contributions a) count) (contributors self)) /\
  generate_contributors_chart after =
    (fst (generate_contributors_chart self), after).
Proof.
  cbv zeta. unfold generate_contributors_chart. cbn [snd fst contributors].
  split; [reflexivity|]. split; [apply sort_perm|].
  split; [apply sort_sorted|]. split.
  - intros count. apply sort_filter.
    intros a b Ha Hb. apply Z.eqb_eq in Ha, Hb.
    unfold by_contributions_desc. rewrite Z.gtb_ltb. apply Z.ltb_ge. lia.
  - cbn [repository analysis_period_days total_commits commit_frequency
         authors file_types contributors].
    now rewrite sort_idempotent.
Qed.

Lemma zsum_app l l' : zsum (l ++ l') = (zsum l + zsum l')%Z.
Proof.
  unfold zsum. induction l as [|x l IH]; simpl; [reflexivity|].
  rewrite IH. lia.
Qed.

Lemma kept_merged_total threshold items :
  (zsum (values (kept threshold items)) +
   zsum (values (merged threshold items)))%Z = zsum (values items).
Proof.
  unfold kept, merged, values, zsum.
  induction items as [|[k v] items IH]; [reflexivity|].
  cbn [filter map snd fold_right] in *.
  destruct (int_ge_float v threshold); cbn [negb map snd fold_right]; lia.
Qed.

Lemma merged_nonnegative threshold items :
  Forall (fun v => (0 <= v)%Z) (values items) ->
  (0 <= zsum (values (merged threshold items)))%Z.
Proof.
  unfold merged, values, zsum.
  induction items as [|[k v] items IH]; intros H; [simpl; lia|].
  inversion H as [|? ? Hv Hrest]; subst.
  cbn [filter map snd fold_right] in *.
  destruct (int_ge_float v threshold); cbn [negb map snd fold_right].
  - now apply IH.
  - specialize (IH Hrest). lia.
Qed.

(** X17. The grouping loses no file: when no count is negative, the
    keys of [file_types] are distinct and none is "Other", the values of
    the pie chart add up to the sum of the counts of the document. *)
Theorem grouping_keeps_total self threshold :
  NoDup (keys (file_types self)) ->
  ~ In "Other"%string (keys (file_types self)) ->
  Forall (fun v => (0 <= v)%Z) (values (file_types self)) ->
  threshold_of (zsum (values (file_types self))) = Ok threshold ->
  exists chart,
    generate_file_types_chart self = (Ok chart, self) /\
    zsum (heights chart) = zsum (values (file_types self)).
Proof.
  intros Hnd Hother Hpos Ht.
  destruct (file_types_grouping_float self threshold Hnd Hother Ht)
    as [chart [Hc [_ [Hh _]]]].
  exists chart. split; [exact Hc|]. rewrite Hh, zsum_app.
  rewrite <- (kept_merged_total threshold (file_types self)).
  pose proof (merged_nonnegative threshold _ Hpos) as Hm.
  destruct (zsum (values (merged threshold (file_types self))) >? 0)%Z eqn:E.
  - unfold zsum at 2. simpl. lia.
  - rewrite Z.gtb_ltb in E. apply Z.ltb_ge in E. unfold zsum at 2. simpl.
    lia.
Qed.

Lemma dict_get_set {V} k (v : V) d :
  dict_get String.eqb k (dict_set String.eqb k v d) = Some v.
Proof.
  induction d as [|[k' v'] d IH]; cbn [dict_set dict_get].
  - now rewrite String.eqb_refl.
  - destruct (String.eqb k k') eqn:E; cbn [dict_get]; rewrite E;
      [reflexivity|exact IH].
Qed.

(** X18. Whenever the counts below the threshold add up to a positive
    number, the slice "Other" of the pie chart shows that sum, also when
    the document has a category named "Other" of its own, whose count is
    then not shown. *)
Theorem other_slice_shows_merged_count self threshold :
  NoDup (keys (file_types self)) ->
  threshold_of (zsum (values (file_types self))) = Ok threshold ->
  let other_count := zsum (values (merged threshold (file_types self))) in
  (0 < other_count)%Z ->
  exists chart,
    generate_file_types_chart self = (Ok chart, self) /\
    dict_get String.eqb "Other"%string
      (combine (labels chart) (heights chart)) = Some other_count.
Proof.
  intros Hnd Ht other_count Hpos.
  unfold generate_file_types_chart. rewrite Ht.
  rewrite group_types_spec; [|exact Hnd|intros k _ []].
  cbn [app Z.add]. fold other_count.
  replace (other_count >? 0)%Z with true
    by (symmetry; apply Z.gtb_lt; lia).
  eexists. split; [reflexivity|]. cbn [labels heights].
  unfold keys, values. rewrite combine_fst_snd. apply dict_get_set.
Qed.

Lemma file_types_chart_frame self :
  snd (generate_file_types_chart self) = self.
Proof.
  unfold generate_file_types_chart.
  destruct (threshold_of _); [|reflexivity].
  now destruct (group_types _ _ _ _).
Qed.

(** X19. [generate_all_charts] draws the four charts each derivation
    draws on its own from the document as loaded, and leaves the
    document as [generate_contributors_chart] leaves it; when the file
    types chart raises, nothing is returned and the document is as
    loaded. *)
Theorem all_charts_are_the_single_charts self :
  match fst (generate_file_types_chart self) with
  | Ok ft =>
      exists cf ct au,
        fst (generate_commit_frequency_chart self) = Ok cf /\
        fst (generate_contributors_chart self) = Ok ct /\
        fst (generate_authors_activity_chart self) = Ok au /\
        generate_all_charts self =
          (Ok {| commit_frequency_chart := cf;
                 file_types_chart := ft;
                 contributors_chart := ct;
                 author_activity_chart := au |},
           snd (generate_contributors_chart self))
  | Err e => generate_all_charts self = (Err e, self)
  end.
Proof.
  pose proof (file_types_chart_frame self) as Hf.
  unfold generate_all_charts, vbind.
  cbn [generate_commit_frequency_chart].
  destruct (generate_file_types_chart self) as [[ft|e] self'] eqn:E;
    cbn [fst snd] in *; subst self'; [|reflexivity].
  do 3 eexists. repeat split.
Qed.

(** X20. The summary of the HTML report shows the repository, the
    period, the total and the numbers of file types and of contributors
    of the document as loaded: sorting the contributors for the chart
    does not change what the page reports. *)
Theorem html_summary_reads_document self all page after :
  generate_html_report self = (Ok (all, page), after) ->
  fst (generate_all_charts self) = Ok all /\
  title page = repository self /\
  period_days page = analysis_period_days self /\
  commits_total page = total_commits self /\
  number_of_file_types page = length (file_types self) /\
  number_of_contributors page = length (contributors self).
Proof.
  unfold generate_html_report, vbind at 1.
  pose proof (file_types_chart_frame self) as Hf.
  unfold generate_all_charts, vbind.
  cbn [generate_commit_frequency_chart].
  destruct (generate_file_types_chart self) as [[ft|e] self'];
    cbn [fst snd] in *; subst self'; [|discriminate].
  cbn. intros E. inversion E; subst. cbn.
  split; [reflexivity|]. split; [reflexivity|]. split; [reflexivity|].
  split; [reflexivity|]. split; [reflexivity|].
  apply (Permutation_length
           (sort_perm by_contributions_desc (contributors self))).
Qed.
End Charts.

(* ================================================================== *)
(** * The further statements at work on the sample data               *)
(* ================================================================== *)

Section MoreSamples.
Import Py RepoStats Fixtures.

Lemma loop_runs_on_full_pages_only_sample :
  full_page (commits_endpoint endless 2).
Proof.
  apply (proj1 (loop_runs_on_full_pages_only 2 endless)).
  - vm_compute. reflexivity.
  - lia.
Defined.

Lemma failed_page_with_message_sample :
  run (get_commits 5 rate_limited) = Returns (flat_map sample_pages (seq 1 1)) /\
  trace (get_commits 5 rate_limited) =
    map Get_commits (seq 1 2) ++
    [Print_error "Error fetching commits"
       (status_code (commits_endpoint rate_limited 2));
     Print_value
       match dict_get String.eqb "message"%string rate_limit_members with
       | Some msg => msg
       | None => JStr "Unknown error"
       end].
Proof.
  apply (failed_page_with_message rate_limited sample_pages 1 5
           rate_limit_members).
  - intros i Hi. replace i with 1 by lia. split; reflexivity.
  - discriminate.
  - reflexivity.
  - lia.
Defined.

Lemma failed_page_without_object_sample :
  run (get_commits 1 error_list) = Raises AttributeError.
Proof.
  apply (failed_page_without_object error_list sample_pages 0 1
           (JArr [JStr "internal error"])).
  - intros i Hi. lia.
  - discriminate.
  - reflexivity.
  - discriminate.
  - lia.
Defined.

Lemma report_counts_are_occurrences_sample :
  exists r,
    run (generate_report analyzer 1 served) = Returns r /\
    exists commits ks,
      run (get_commits 1 served) = Returns commits /\
      rmap commit_keys commits = Ok ks /\
      (forall day,
         count_of String.eqb day (commit_frequency r) =
         occurrences String.eqb day (map fst ks)) /\
      (forall author,
         count_of pykey_eqb author (authors r) =
         occurrences pykey_eqb author (map snd ks)) /\
      (forall day,
         In day (keys (commit_frequency r)) <-> In day (map fst ks)) /\
      (forall author,
         In author (keys (authors r)) <-> In author (map snd ks)).
Proof.
  eexists. split; [vm_compute; reflexivity|].
  apply (report_counts_are_occurrences analyzer 1 served).
  vm_compute. reflexivity.
Defined.

Lemma report_keys_unique_sample :
  exists r,
    run (generate_report analyzer 1 served) = Returns r /\
    NoDup (keys (commit_frequency r)) /\
    NoDup (keys (authors r)) /\
    NoDup (keys (file_types r)) /\
    ~ In "Other"%string (keys (file_types r)).
Proof.
  eexists. split; [vm_compute; reflexivity|].
  apply (report_keys_unique analyzer 1 served).
  vm_compute. reflexivity.
Defined.

Lemma file_types_count_blobs_sample :
  exists ft,
    run (get_file_types served) = Returns ft /\
    sum (values ft) = length (blobs sample_entries) /\
    forall token,
      count_of String.eqb token ft =
      occurrences String.eqb token
        (map (fun e => extension_token (fst e)) (blobs sample_entries)).
Proof.
  eapply (file_types_count_blobs served); try reflexivity.
  repeat constructor.
Defined.

Lemma extension_token_of_final_component_sample :
  extension_token ("pkg.d/v1.2" ++ "/" ++ "Main.RS")%string =
  extension_token "Main.RS".
Proof.
  apply (extension_token_of_final_component "pkg.d/v1.2" "Main.RS").
  simpl. intuition discriminate.
Defined.

Lemma contributors_first_ten_sample :
  exists r,
    run (generate_report analyzer 1 served) = Returns r /\
    length (contributors r) <= 10 /\
    contributors r = [(JStr "octocat", JNum 32); (JStr "hubot", JNum 5)].
Proof.
  eexists. split; [vm_compute; reflexivity|].
  match goal with
  | |- length (contributors ?r) <= 10 /\ _ =>
      destruct (contributors_first_ten analyzer 1 served r) as [H1 H2];
        [vm_compute; reflexivity|]
  end.
  split; [exact H1|].
  apply (H2 [contributor_record "octocat" 32; contributor_record "hubot" 5]);
    try reflexivity.
  repeat constructor.
Defined.

Lemma tree_entry_needs_members_sample :
  run (get_file_types broken_tree) = Raises (KeyError "type").
Proof.
  eapply (tree_entry_needs_members broken_tree _
            [tree_entry "setup.py" "blob"]
            (JObj [("path", JStr "docs")]%string) []
            [("setup.py", "blob")]%string); try reflexivity.
  - repeat constructor.
  - left. split; [reflexivity|]. eexists. split; reflexivity.
Defined.

Lemma grouping_keeps_total_sample :
  exists chart,
    StatsVisualizer.generate_file_types_chart
      (document [("py", 60); ("md", 39); ("cfg", 1)]%string%Z []) =
      (Ok chart, document [("py", 60); ("md", 39); ("cfg", 1)]%string%Z []) /\
    StatsVisualizer.zsum (StatsVisualizer.heights chart) = 100%Z.
Proof.
  apply (grouping_keeps_total
           (document [("py", 60); ("md", 39); ("cfg", 1)]%string%Z [])
           (S754_finite false 4503599627370496 (-51))).
  - repeat constructor; simpl; intuition discriminate.
  - simpl. intuition discriminate.
  - repeat constructor; discriminate.
  - vm_compute. reflexivity.
Defined.

Lemma other_slice_shows_merged_count_sample :
  exists chart,
    StatsVisualizer.generate_file_types_chart
      (document [("Other", 98); ("md", 1); ("cfg", 1)]%string%Z []) =
      (Ok chart,
       document [("Other", 98); ("md", 1); ("cfg", 1)]%string%Z []) /\
    dict_get String.eqb "Other"%string
      (combine (StatsVisualizer.labels chart)
         (StatsVisualizer.heights chart)) = Some 2%Z.
Proof.
  apply (other_slice_shows_merged_count
           (document [("Other", 98); ("md", 1); ("cfg", 1)]%string%Z [])
           (S754_finite false 4503599627370496 (-51))).
  - repeat constructor; simpl; intuition discriminate.
  - vm_compute. reflexivity.
  - vm_compute. reflexivity.
Defined.

Lemma html_summary_reads_document_sample :
  exists all page after,
    StatsVisualizer.generate_html_report unsorted_document =
      (Ok (all, page), after) /\
    fst (StatsVisualizer.generate_all_charts unsorted_document) = Ok all /\
    StatsVisualizer.title page =
      StatsVisualizer.repository unsorted_document /\
    StatsVisualizer.period_days page =
      StatsVisualizer.analysis_period_days unsorted_document /\
    StatsVisualizer.commits_total page =
      StatsVisualizer.total_commits unsorted_document /\
    StatsVisualizer.number_of_file_types page =
      length (StatsVisualizer.file_types unsorted_document) /\
    StatsVisualizer.number_of_contributors page =
      length (StatsVisualizer.contributors unsorted_document).
Proof.
  do 3 eexists. split; [vm_compute; reflexivity|].
  eapply (html_summary_reads_document unsorted_document).
  vm_compute. reflexivity.
Defined.
End MoreSamples.
